(** * ytdlp-http: a shallow embedding of the service's core logic

  The development follows the repository's packages:
  - [GoStr]     the Go standard-library string and path helpers the code calls
                ([filepath.Ext], [strings.TrimSuffix], [strings.Trim], ...);
  - [Utils]     [internal/utils/files.go];
  - [S3]        the object-storage uploader (package [s3]);
  - [Ytdlp]     [internal/ytdlp/ytdlp.go];
  - [Handlers]  the upload handler's key derivation;
  - [Auth]      [internal/server/middlewares/auth.go].

  Go strings are byte sequences: they are modelled as [list ascii]. *)

From Stdlib Require Import ZArith Ascii String List Bool Lia PrimFloat.
From stdpp Require Import base option list gmap strings pretty.

Import ListNotations.
Local Open Scope list_scope.
Local Open Scope Z_scope.

(** A Go string: an immutable sequence of bytes. *)
Abbreviation gostring := (list ascii).

(** String literals of the source, as byte sequences. *)
Abbreviation str := list_ascii_of_string.

(* ===================================================================== *)
(** * Go standard library helpers                                         *)
(* ===================================================================== *)

Module GoStr.

Definition slash : ascii := "/"%char.
Definition dot : ascii := "."%char.
Definition underscore : ascii := "_"%char.
Definition space : ascii := " "%char.

(** [filepath.Ext] (Unix): walk back from the last byte while the byte is
    not a path separator; at the first dot return the suffix that starts
    there. [acc] is [path[i+1:]], [r] is [path[:i+1]] reversed. *)
Fixpoint extLoop (r : gostring) (acc : gostring) : gostring :=
  match r with
  | [] => []
  | c :: r' =>
      if Ascii.eqb c slash then []
      else if Ascii.eqb c dot then c :: acc
      else extLoop r' (c :: acc)
  end.

Definition Ext (path : gostring) : gostring := extLoop (rev path) [].

(** [strings.HasSuffix]: [len(s) >= len(suffix) && s[len(s)-len(suffix):] == suffix]. *)
Definition HasSuffix (s suffix : gostring) : bool :=
  (length suffix <=? length s)%nat
  && bool_decide (drop (length s - length suffix)%nat s = suffix).

(** [strings.TrimSuffix]. *)
Definition TrimSuffix (s suffix : gostring) : gostring :=
  if HasSuffix s suffix then take (length s - length suffix)%nat s else s.

(** [strings.HasPrefix]. *)
Definition HasPrefix (s prefix : gostring) : bool :=
  (length prefix <=? length s)%nat
  && bool_decide (take (length prefix) s = prefix).

(** The numeric value of a byte. *)
Definition byteVal (c : ascii) : N := N_of_ascii c.

Definition inRange (lo hi : N) (c : ascii) : bool :=
  ((lo <=? byteVal c) && (byteVal c <=? hi))%N.

(** A UTF-8 continuation byte, [0x80..0xBF]. *)
Definition isCont (c : ascii) : bool := inRange 0x80 0xBF c.

(** The width reported by [utf8.DecodeRuneInString] at the head of [s]
    (tables [first] and [acceptRanges] of package [unicode/utf8]): an
    ASCII byte, an invalid leading byte and a truncated or ill-formed
    sequence all have width 1 (the last three decode to [RuneError]). *)
Definition runeWidth (s : gostring) : nat :=
  match s with
  | [] => 0
  | s0 :: t =>
      let b0 := byteVal s0 in
      if (b0 <? 0x80)%N then 1
      else if ((b0 <? 0xC2) || (0xF4 <? b0))%N then 1
      else
        let sz := if (b0 <? 0xE0)%N then 2%nat
                  else if (b0 <? 0xF0)%N then 3%nat else 4%nat in
        let lo := if (b0 =? 0xE0)%N then 0xA0%N
                  else if (b0 =? 0xF0)%N then 0x90%N else 0x80%N in
        let hi := if (b0 =? 0xED)%N then 0x9F%N
                  else if (b0 =? 0xF4)%N then 0x8F%N else 0xBF%N in
        if (length s <? sz)%nat then 1
        else match t with
             | [] => 1
             | s1 :: t1 =>
                 if negb (inRange lo hi s1) then 1
                 else if (sz <=? 2)%nat then 2
                 else match t1 with
                      | [] => 1
                      | s2 :: t2 =>
                          if negb (isCont s2) then 1
                          else if (sz <=? 3)%nat then 3
                          else match t2 with
                               | [] => 1
                               | s3 :: _ => if negb (isCont s3) then 1 else 4
                               end
                      end
             end
  end%nat.

(** [trimLeftByte] and [trimRightByte] of package [strings]. *)
Fixpoint trimLeftByte (s : gostring) (c : ascii) : gostring :=
  match s with
  | [] => []
  | x :: s' => if Ascii.eqb x c then trimLeftByte s' c else s
  end.

Definition trimRightByte (s : gostring) (c : ascii) : gostring :=
  rev (trimLeftByte (rev s) c).

(** [strings.Trim] with a cutset of one ASCII byte (the only use in the
    source): the right end is trimmed first, then the left end. *)
Definition TrimByte (s : gostring) (c : ascii) : gostring :=
  trimLeftByte (trimRightByte s c) c.

(** [strings.ToLower] on its ASCII path: [A-Z] become [a-z], every other
    byte is kept. Go also lower-cases letters outside ASCII; the model
    leaves their bytes unchanged. No rune outside ASCII lower-cases to one
    of the letters b, e, a, r, so comparing the result with "bearer" gives
    the same answer in both. *)
Definition lowerByte (c : ascii) : ascii :=
  if inRange 65 90 c then ascii_of_N (byteVal c + 32) else c.

Definition ToLower (s : gostring) : gostring := map lowerByte s.

(** [strings.SplitN(s, " ", 2)]: the text before the first space and the
    text after it, or [s] alone when it has no space. *)
Fixpoint cutAtSpace (s : gostring) : option (gostring * gostring) :=
  match s with
  | [] => None
  | c :: s' =>
      if Ascii.eqb c space then Some ([], s')
      else match cutAtSpace s' with
           | Some (a, b) => Some (c :: a, b)
           | None => None
           end
  end.

Definition SplitN2 (s : gostring) : list gostring :=
  match cutAtSpace s with
  | Some (a, b) => [a; b]
  | None => [s]
  end.

(** Lower-case hexadecimal, as [hex.EncodeToString] and the verb [%x]. *)
Definition hexDigit (n : N) : ascii :=
  if (n <? 10)%N then ascii_of_N (48 + n) else ascii_of_N (87 + n).

Definition hexByte (c : ascii) : gostring :=
  [hexDigit (byteVal c / 16); hexDigit (byteVal c mod 16)].

Definition EncodeToString (bs : gostring) : gostring := concat (map hexByte bs).

(** The verb [%d] on an [int64]. *)
Definition fmtInt (z : Z) : gostring := str (pretty z).

(** [filepath.Join(dir, name)] for a clean [dir] and a plain file name:
    the call sites join a directory that is itself the result of a
    [filepath.Join] with a directory-entry name or a fixed pattern. *)
Definition Join (dir name : gostring) : gostring := dir ++ slash :: name.

(** The text after the last slash of a reversed path, and the rest. *)
Fixpoint untilSlash (r : gostring) : gostring :=
  match r with
  | [] => []
  | c :: r' => if Ascii.eqb c slash then [] else c :: untilSlash r'
  end.

Fixpoint afterSlash (r : gostring) : gostring :=
  match r with
  | [] => []
  | c :: r' => if Ascii.eqb c slash then r' else afterSlash r'
  end.

(** [filepath.Base] (Unix): "." for the empty path; trailing slashes are
    stripped; the last element is returned, or "/" when nothing is left. *)
Definition Base (path : gostring) : gostring :=
  if bool_decide (path = []) then str "."
  else
    let path := trimRightByte path slash in
    let path := rev (untilSlash (rev path)) in
    if bool_decide (path = []) then str "/" else path.

(** The two halves of a path at its last slash: the directory that holds
    the file, and the file's name there. *)
Definition parentOf (path : gostring) : gostring := rev (afterSlash (rev path)).
Definition nameOf (path : gostring) : gostring := rev (untilSlash (rev path)).

(** 64-bit signed arithmetic: [int64] values are integers in
    [-2^63, 2^63) and addition wraps around. *)
Definition wrap64 (z : Z) : Z := (z + 2 ^ 63) mod 2 ^ 64 - 2 ^ 63.
Definition add64 (a b : Z) : Z := wrap64 (a + b).

End GoStr.

(* ===================================================================== *)
(** * Package utils                                                       *)
(* ===================================================================== *)

Module Utils.
Import GoStr.

(** The character class [a-zA-Z0-9\-_.] of the pattern in
    [SanitizeFilename]. *)
Definition safeByte (c : ascii) : bool :=
  inRange 97 122 c || inRange 65 90 c || inRange 48 57 c
  || Ascii.eqb c "-" || Ascii.eqb c underscore || Ascii.eqb c dot.

(** [reg.ReplaceAllString(filename, "_")] for the negated class: the
    matcher walks the string rune by rune; a rune outside the class, which
    includes every rune that is not ASCII and every ill-formed byte, is
    replaced by one underscore. [skip] counts the bytes of the current rune
    still to be consumed. *)
Fixpoint replaceUnsafe (skip : nat) (s : gostring) : gostring :=
  match s with
  | [] => []
  | c :: rest =>
      match skip with
      | S k => replaceUnsafe k rest
      | O =>
          if (byteVal c <? 0x80)%N
          then (if safeByte c then c else underscore) :: replaceUnsafe 0 rest
          else underscore :: replaceUnsafe (runeWidth (c :: rest) - 1) rest
      end
  end.

Definition ReplaceAllString (s : gostring) : gostring := replaceUnsafe 0 s.

(** [SanitizeFilename]. *)
Definition SanitizeFilename (filename : gostring) : gostring :=
  let sanitized := ReplaceAllString filename in
  let sanitized := TrimByte sanitized underscore in
  let sanitized :=
    if (100 <? length sanitized)%nat then take 100 sanitized else sanitized in
  if bool_decide (sanitized = []) then str "file" else sanitized.

(** [GenerateUniqueKey]; the clock reading [time.Now().Unix()] and the four
    bytes filled by [rand.Read] are inputs. *)
Definition GenerateUniqueKey (timestamp : Z) (randomBytes : gostring)
    (originalFilename : gostring) : gostring :=
  let randomStr := EncodeToString randomBytes in
  let ext := Ext originalFilename in
  let baseName := TrimSuffix originalFilename ext in
  let safeName := SanitizeFilename baseName in
  fmtInt timestamp ++ underscore :: randomStr ++ underscore :: safeName ++ ext.

(** [GetContentType]. *)
Definition contentTypes : list (string * string) :=
  [ (".mp4", "video/mp4"); (".avi", "video/x-msvideo");
    (".mov", "video/quicktime"); (".wmv", "video/x-ms-wmv");
    (".flv", "video/x-flv"); (".webm", "video/webm");
    (".mkv", "video/x-matroska"); (".m4v", "video/x-m4v");
    (".3gp", "video/3gpp"); (".mp3", "audio/mpeg"); (".wav", "audio/wav");
    (".flac", "audio/flac"); (".aac", "audio/aac"); (".ogg", "audio/ogg");
    (".m4a", "audio/mp4"); (".opus", "audio/opus");
    (".json", "application/json") ]%string.

Fixpoint lookupType (ext : gostring) (table : list (string * string)) : gostring :=
  match table with
  | [] => str "application/octet-stream"
  | (e, t) :: table' =>
      if bool_decide (ext = str e) then str t else lookupType ext table'
  end.

Definition GetContentType (filePath : gostring) : gostring :=
  lookupType (ToLower (Ext filePath)) contentTypes.

End Utils.

(* ===================================================================== *)
(** * Package ytdlp: the video fetcher                                    *)
(* ===================================================================== *)

(** Log lines of the [zap] logger: a level and the message (the structured
  fields are not modelled). *)
Inductive Level := LDebug | LInfo | LWarn | LError.

Abbreviation LogLine := (Level * string)%type.

Module Ytdlp.
Import GoStr.

Record VideoInfo := {
  ID : gostring;
  Title : gostring;
  Duration : PrimFloat.float;
  Uploader : gostring;
  UploadDate : gostring;
  ViewCount : Z;
  Format : gostring;
  Filename : gostring;
  Filesize : Z;
  URL : gostring;
  Thumbnail : gostring;
  Description : gostring
}.

(** [Options]; [ExtraArgs] lists the map's pairs in the order the [range]
    loop visits them. *)
Record Options := {
  OFormat : gostring;
  AudioOnly : bool;
  VideoOnly : bool;
  Quality : gostring;
  OutputPath : gostring;
  ExtraArgs : list (gostring * gostring);
  MaxFileSize : gostring
}.

(** An entry of a directory as [os.ReadDir] reports it, with the bytes
    [os.ReadFile] returns for it ([None]: not readable as a file). *)
Record DirEntry := {
  Name : gostring;
  IsDir : bool;
  Data : option gostring
}.

(** The file system under the temp root: the entries of each directory,
    in the order [os.ReadDir] lists them. *)
Record World := {
  fs : gmap gostring (list DirEntry);
  logs : list LogLine
}.

(** What one call reads from outside the program. The external tool is a
    function of its arguments and of the file system: it reports whether
    [cmd.Run] returned nil (a non-zero exit and a cancelled context both make
    it an error) and the file system it leaves. Its arguments, among them the
    caller's extra flags, decide where it writes. [removeAllFails] says
    whether the calls of [os.RemoveAll] in [DownloadVideo] return an error. *)
Record Env := {
  tmpDir : gostring;
  nowNano : Z;
  mkdirFails : bool;
  tool : list gostring -> gmap gostring (list DirEntry)
         -> bool * gmap gostring (list DirEntry);
  readDirFails : bool;
  removeAllFails : bool;
  unmarshal : gostring -> option VideoInfo
}.

Inductive DownloadError :=
| ErrCreateDir
| ErrDownload
| ErrReadDir
| ErrNotFound.


(** The triple [(string, *VideoInfo, error)] that [DownloadVideo] returns. *)
Record Result := {
  filePath : gostring;
  info : option VideoInfo;
  err : option DownloadError
}.

Definition failure (e : DownloadError) : Result :=
  {| filePath := []; info := None; err := Some e |}.

Definition log (l : Level) (msg : string) (w : World) : World :=
  {| fs := fs w; logs := logs w ++ [(l, msg)] |}.

Definition setFs (f : gmap gostring (list DirEntry)) (w : World) : World :=
  {| fs := f; logs := logs w |}.

(** [os.MkdirAll]: an existing directory is left as it is. *)
Definition MkdirAll (e : Env) (dir : gostring) (w : World) : option World :=
  if mkdirFails e then None
  else match fs w !! dir with
       | Some _ => Some w
       | None => Some (setFs (<[dir := []]> (fs w)) w)
       end.

(** [os.RemoveAll]: whether it returned nil, and the world it leaves. A
    removal that fails is taken to leave the directory with all it holds;
    what is proved of a removal in general is proved of one that succeeds,
    and a failing one appears in examples only. *)
Definition RemoveAll (fails : bool) (dir : gostring) (w : World) : bool * World :=
  if fails then (false, w) else (true, setFs (delete dir (fs w)) w).

(** [cmd.Run] of the external tool. *)
Definition Run (e : Env) (args : list gostring) (dir : gostring) (w : World)
  : bool * World :=
  let '(ok, disk) := tool e args (fs w) in
  (ok, setFs disk w).

(** [os.ReadDir]. *)
Definition ReadDir (e : Env) (dir : gostring) (w : World) : option (list DirEntry) :=
  if readDirFails e then None else fs w !! dir.

(** [os.ReadFile] of a path inside a directory of the model. *)
Definition ReadFile (path : gostring) (w : World) : option gostring :=
  entries ← fs w !! parentOf path;
  entry ← find (fun f => bool_decide (Name f = nameOf path)) entries;
  Data entry.

(** The argument list of the external tool. *)
Definition buildArgs (uniqueDir url : gostring) (options : option Options)
  : list gostring :=
  let args :=
    [str "--no-playlist"; str "--output";
     Join uniqueDir (str "%(title)s.%(ext)s"); str "--write-info-json"] in
  let args :=
    match options with
    | None => args
    | Some o =>
        let args :=
          if bool_decide (OFormat o <> []) then args ++ [str "--format"; OFormat o]
          else args in
        let args :=
          if AudioOnly o
          then args ++ [str "--extract-audio"; str "--audio-format"; str "mp3"]
          else args in
        let args :=
          if VideoOnly o then args ++ [str "--format"; str "best[height<=720]"]
          else args in
        let args :=
          if bool_decide (Quality o <> [])
          then args ++ [str "--format"; str "best[height<=" ++ Quality o ++ str "]"]
          else args in
        let args :=
          if bool_decide (MaxFileSize o <> [])
          then args ++ [str "--max-filesize"; MaxFileSize o]
          else args in
        fold_left (fun args kv => args ++ [str "--" ++ fst kv; snd kv])
                  (ExtraArgs o) args
    end in
  args ++ [url].

(** One iteration of the loop over the directory entries; the state is the
    pair [(videoFile, infoFile)]. *)
Definition scanStep (uniqueDir : gostring) (st : gostring * gostring)
    (file : DirEntry) : gostring * gostring :=
  if bool_decide (Ext (Name file) = str ".json")
  then (fst st, Join uniqueDir (Name file))
  else if negb (IsDir file)
       then (Join uniqueDir (Name file), snd st)
       else st.

Definition scan (uniqueDir : gostring) (files : list DirEntry)
  : gostring * gostring :=
  fold_left (scanStep uniqueDir) files ([], []).

(** Reading the info sidecar: a sidecar that is absent, cannot be read or
    does not parse gives [nil]. *)
Definition loadInfo (e : Env) (infoFile : gostring) (w : World)
  : option VideoInfo * World :=
  if bool_decide (infoFile <> []) then
    match ReadFile infoFile w with
    | None => (None, log LWarn "Failed to read info file" w)
    | Some infoData =>
        match unmarshal e infoData with
        | Some i => (Some i, w)
        | None => (None, log LWarn "Failed to parse info file" w)
        end
    end
  else (None, w).

Definition uniqueDirOf (e : Env) : gostring :=
  Join (tmpDir e) (str "download_" ++ fmtInt (nowNano e)).

(** [os.RemoveAll(uniqueDir)] as [DownloadVideo] calls it: the error is
    discarded. *)
Definition removeQuietly (e : Env) (dir : gostring) (w : World) : World :=
  snd (RemoveAll (removeAllFails e) dir w).

(** [Service.DownloadVideo]. The mutex only serialises calls; one call is
    modelled. *)
Definition DownloadVideo (e : Env) (url : gostring) (options : option Options)
    (w : World) : Result * World :=
  let w := log LInfo "Starting video download" w in
  let uniqueDir := uniqueDirOf e in
  match MkdirAll e uniqueDir w with
  | None => (failure ErrCreateDir, w)
  | Some w =>
      let args := buildArgs uniqueDir url options in
      let '(ok, w) := Run e args uniqueDir w in
      if negb ok then
        let w := log LError "Failed to download video" w in
        let w := removeQuietly e uniqueDir w in
        (failure ErrDownload, w)
      else
        match ReadDir e uniqueDir w with
        | None => (failure ErrReadDir, removeQuietly e uniqueDir w)
        | Some files =>
            let '(videoFile, infoFile) := scan uniqueDir files in
            if bool_decide (videoFile = []) then
              (failure ErrNotFound, removeQuietly e uniqueDir w)
            else
              let '(i, w) := loadInfo e infoFile w in
              let w := log LInfo "Video downloaded successfully" w in
              ({| filePath := videoFile; info := i; err := None |}, w)
        end
  end.

(** A file opened for reading: the size [Stat] reports, and what reading
    it in sequence delivers ([None]: the read fails). *)
Record Reader := {
  size : Z;
  bytes : option gostring
}.

(** [os.Open] followed by [Stat]. An entry whose bytes can be read is a
    regular file: it opens, and [Stat] reports the number of its bytes. For
    any other entry (a directory, a link to one, a file that may not be read)
    [special] says whether both calls succeed, and with which size; reading
    it fails. A path that names no entry does not open. *)
Definition openFile (special : DirEntry -> option Z)
    (filePath : gostring) (w : World) : option Reader :=
  entries ← fs w !! parentOf filePath;
  entry ← find (fun f => bool_decide (Name f = nameOf filePath)) entries;
  match Data entry with
  | Some data => Some {| size := Z.of_nat (length data); bytes := Some data |}
  | None => sz ← special entry; Some {| size := sz; bytes := None |}
  end.

(** [Service.GetVideoReader]: the open file and the size [Stat] reported;
    nothing is read here. *)
Definition GetVideoReader (special : DirEntry -> option Z)
    (filePath : gostring) (w : World) : option Reader :=
  openFile special filePath w.

(** [Service.CleanupFile]. [filepath.Dir] of a path that [Join] built is the
    text before its last slash. Here the result of [os.RemoveAll] is
    inspected: [removeFails] says whether it is an error. *)
Definition CleanupFile (removeFails : bool) (filePath : gostring) (w : World)
  : bool * World :=
  let dir := parentOf filePath in
  let '(ok, w) := RemoveAll removeFails dir w in
  if ok
  then (true, log LDebug "Cleaned up download directory" w)
  else (false, log LError "Failed to cleanup download directory" w).

End Ytdlp.

(* ===================================================================== *)
(** * Package s3: the object-storage uploader                             *)
(* ===================================================================== *)

Module S3.
Import GoStr.

Record S3Config := {
  AccessKeyID : gostring;
  SecretAccessKey : gostring;
  Region : gostring;
  Bucket : gostring;
  Endpoint : gostring
}.

Record FileUploadResult := {
  Key : gostring;
  FBucket : gostring;
  Location : gostring;
  ETag : gostring;
  Size : Z;
  ContentType : gostring;
  MD5Hash : gostring
}.

Record UploadResult := {
  VideoUpload : FileUploadResult;
  MetadataUpload : FileUploadResult;
  TotalSize : Z;
  UploadedAt : Z
}.

(** The document [uploadMetadata] marshals. *)
Record Metadata := {
  original_filename : gostring;
  upload_timestamp : gostring;
  video_info : option Ytdlp.VideoInfo
}.

(** A stored object: the body, its content type and the user metadata of
    the [PutObjectInput]. *)
Record Object := {
  oBody : gostring;
  oContentType : gostring;
  oContentLength : Z;
  oMetadata : list (string * gostring)
}.

(** A local file and the outcome of the calls made on its handle. *)
Record LocalFile := {
  content : gostring;
  statFails : bool;
  readFails : bool;
  seekFails : bool
}.

(** The bucket, the local files, the clock and the log. [faults] scripts
    the storage client: each [PutObject] or [DeleteObject] consumes the
    head, and [true] makes that call return an error and leave the bucket
    as it is; an empty script means success. *)
Record World := {
  objects : gmap gostring Object;
  files : gmap gostring LocalFile;
  faults : list bool;
  clock : Z;
  logs : list LogLine
}.

(** The service's configuration and the library functions it calls on
    values: the MD5 hex digest, [json.MarshalIndent] of the metadata
    document, [Time.Format(time.RFC3339)] and the entity tag the storage
    answers to a put (as sent, quotes included). *)
Record Service := {
  config : S3Config;
  md5hex : gostring -> gostring;
  marshalIndent : Metadata -> option gostring;
  rfc3339 : Z -> gostring;
  etagOf : gostring -> gostring
}.

Inductive Error :=
| ErrOpen
| ErrStat
| ErrRead
| ErrSeek
| ErrMarshal
| ErrClient
| Wrap (context : string) (cause : Error)
| Errors (context : string) (causes : list string).

(** The text of an error; [%w] and [%v] both print the cause's text. *)
Fixpoint message (e : Error) : string :=
  match e with
  | ErrOpen => "open: no such file or directory"
  | ErrStat => "stat failed"
  | ErrRead => "read failed"
  | ErrSeek => "seek failed"
  | ErrMarshal => "json: unsupported value"
  | ErrClient => "operation error S3"
  | Wrap context cause => context +:+ ": " +:+ message cause
  | Errors context causes =>
      context +:+ ": [" +:+ String.concat " " causes +:+ "]"
  end.

(** ** State and errors *)

Definition M (A : Type) : Type := World -> (Error + A) * World.

Definition ret {A} (a : A) : M A := fun w => (inr a, w).
Definition throw {A} (e : Error) : M A := fun w => (inl e, w).

Definition bind {A B} (m : M A) (k : A -> M B) : M B :=
  fun w =>
    match m w with
    | (inl e, w') => (inl e, w')
    | (inr a, w') => k a w'
    end.

(** Running a call and looking at its [err]. *)
Definition attempt {A} (m : M A) : M (Error + A) :=
  fun w => let '(r, w') := m w in (inr r, w').

(** [fmt.Errorf("...: %w", err)] on the error path of a call. *)
Definition wrapErr {A} (context : string) (m : M A) : M A :=
  fun w =>
    match m w with
    | (inl e, w') => (inl (Wrap context e), w')
    | r => r
    end.

Declare Scope s3_scope.
Delimit Scope s3_scope with s3.
Notation "'let*' x ':=' m 'in' k" := (bind m (fun x => k))
  (at level 10, x name, m at level 100, k at level 200, only parsing) : s3_scope.
Notation "'exec' m 'in' k" := (bind m (fun _ => k))
  (at level 10, m at level 100, k at level 200, only parsing) : s3_scope.
Local Open Scope s3_scope.

Definition log (l : Level) (msg : string) : M unit :=
  fun w => (inr tt, {| objects := objects w; files := files w;
                       faults := faults w; clock := clock w;
                       logs := logs w ++ [(l, msg)] |}).

(** [time.Now()]. *)
Definition now : M Z := fun w => (inr (clock w), w).

Definition setObjects (o : gmap gostring Object) (w : World) : World :=
  {| objects := o; files := files w; faults := faults w;
     clock := clock w; logs := logs w |}.

(** The next scripted outcome of the storage client. *)
Definition nextFault : M bool :=
  fun w =>
    match faults w with
    | [] => (inr false, w)
    | b :: rest =>
        (inr b, {| objects := objects w; files := files w; faults := rest;
                   clock := clock w; logs := logs w |})
    end.

(** [client.PutObject]: the answer carries the entity tag. *)
Definition PutObject (s : Service) (key : gostring) (o : Object) : M gostring :=
  let* failed := nextFault in
  if failed : bool then throw ErrClient
  else fun w => (inr (etagOf s (oBody o)), setObjects (<[key := o]> (objects w)) w).

(** [client.DeleteObject]. *)
Definition DeleteObject (key : gostring) : M unit :=
  let* failed := nextFault in
  if failed : bool then throw ErrClient
  else fun w => (inr tt, setObjects (delete key (objects w)) w).

(** [os.Open]. *)
Definition Open (filePath : gostring) : M LocalFile :=
  fun w =>
    match files w !! filePath with
    | Some f => (inr f, w)
    | None => (inl ErrOpen, w)
    end.

Definition guard (failed : bool) (e : Error) : M unit :=
  if failed then throw e else ret tt.

Definition quote : ascii := "034"%char.

Definition locationOf (s : Service) (key : gostring) : gostring :=
  Endpoint (config s) ++ slash :: Bucket (config s) ++ slash :: key.

(** [Service.uploadFile]. *)
Definition uploadFile (s : Service) (filePath key : gostring) : M FileUploadResult :=
  let* file := wrapErr "failed to open file" (Open filePath) in
  exec wrapErr "failed to get file stats" (guard (statFails file) ErrStat) in
  let size := Z.of_nat (length (content file)) in
  let contentType := Utils.GetContentType filePath in
  exec wrapErr "failed to calculate MD5 hash" (guard (readFails file) ErrRead) in
  let md5Hash := md5hex s (content file) in
  exec wrapErr "failed to reset file pointer" (guard (seekFails file) ErrSeek) in
  let* t := now in
  let input :=
    {| oBody := content file;
       oContentType := contentType;
       oContentLength := size;
       oMetadata := [("original-filename"%string, Base filePath);
                     ("upload-timestamp"%string, rfc3339 s t)] |} in
  let* etag := wrapErr "failed to upload to S3-compatible storage"
                  (PutObject s key input) in
  ret {| Key := key;
         FBucket := Bucket (config s);
         Location := locationOf s key;
         ETag := TrimByte etag quote;
         Size := size;
         ContentType := contentType;
         MD5Hash := md5Hash |}.

(** [Service.uploadMetadata]. *)
Definition uploadMetadata (s : Service) (key : gostring)
    (videoInfo : option Ytdlp.VideoInfo) (originalFilename : gostring)
  : M FileUploadResult :=
  let* t := now in
  let metadata :=
    {| original_filename := originalFilename;
       upload_timestamp := rfc3339 s t;
       video_info := videoInfo |} in
  match marshalIndent s metadata with
  | None => throw (Wrap "failed to marshal metadata" ErrMarshal)
  | Some jsonData =>
      let md5Hash := md5hex s jsonData in
      let size := Z.of_nat (length jsonData) in
      let* t' := now in
      let input :=
        {| oBody := jsonData;
           oContentType := str "application/json";
           oContentLength := size;
           oMetadata := [("content-type"%string, str "application/json");
                         ("upload-timestamp"%string, rfc3339 s t')] |} in
      let* etag := wrapErr "failed to upload metadata to S3-compatible storage"
                      (PutObject s key input) in
      ret {| Key := key;
             FBucket := Bucket (config s);
             Location := locationOf s key;
             ETag := TrimByte etag quote;
             Size := size;
             ContentType := str "application/json";
             MD5Hash := md5Hash |}
  end.

(** [Service.DeleteFile]. *)
Definition DeleteFile (key : gostring) : M unit :=
  let* r := attempt (DeleteObject key) in
  match r with
  | inl e =>
      exec log LError "Failed to delete object from S3-compatible storage" in
      throw (Wrap "failed to delete object" e)
  | inr _ => log LInfo "File deleted from S3-compatible storage"
  end.

(** [Service.getMetadataKey]. *)
Definition getMetadataKey (videoKey : gostring) : gostring :=
  let ext := Ext videoKey in
  let base := TrimSuffix videoKey ext in
  base ++ str ".json".

(** [Service.UploadVideoWithMetadata]. *)
Definition UploadVideoWithMetadata (s : Service) (filePath key : gostring)
    (videoInfo : option Ytdlp.VideoInfo) : M UploadResult :=
  exec log LInfo "Starting video and metadata upload" in
  let* videoResult := wrapErr "failed to upload video" (uploadFile s filePath key) in
  let metadataKey := getMetadataKey key in
  let* r := attempt (uploadMetadata s metadataKey videoInfo (Base filePath)) in
  match r with
  | inl e =>
      exec log LError "Failed to upload metadata, cleaning up video" in
      let* d := attempt (DeleteFile key) in
      exec match d with
      | inl _ => log LError "Failed to cleanup video after metadata upload failure"
      | inr _ => ret tt
      end in
      throw (Wrap "failed to upload metadata" e)
  | inr metadataResult =>
      let* t := now in
      let result :=
        {| VideoUpload := videoResult;
           MetadataUpload := metadataResult;
           TotalSize := add64 (Size videoResult) (Size metadataResult);
           UploadedAt := t |} in
      exec log LInfo "Video and metadata uploaded successfully" in
      ret result
  end.

(** [Service.DeleteVideoAndMetadata]. *)
Definition DeleteVideoAndMetadata (videoKey : gostring) : M unit :=
  let metadataKey := getMetadataKey videoKey in
  let* r1 := attempt (DeleteFile videoKey) in
  let errors :=
    match r1 with
    | inl e => [message (Wrap "failed to delete video" e)]
    | inr _ => []
    end in
  let* r2 := attempt (DeleteFile metadataKey) in
  let errors :=
    match r2 with
    | inl e => errors ++ [message (Wrap "failed to delete metadata" e)]
    | inr _ => errors
    end in
  if (0 <? length errors)%nat then throw (Errors "deletion errors" errors)
  else ret tt.

(** ** Reading aids for the sibling property of the two keys *)

(** The part of a reversed key that starts at its first slash. *)
Fixpoint fromSlash (r : gostring) : gostring :=
  match r with
  | [] => []
  | c :: r' => if Ascii.eqb c slash then r else fromSlash r'
  end.

(** The directory prefix of a key: everything up to and including its
    last slash (empty when the key has none). *)
Definition dirPrefix (key : gostring) : gostring := rev (fromSlash (rev key)).

(** A key without its extension: directory prefix and base name. *)
Definition stem (key : gostring) : gostring := TrimSuffix key (Ext key).

End S3.

(* ===================================================================== *)
(** * Package handlers: the upload handler's storage key                  *)
(* ===================================================================== *)

Module Handlers.
Import GoStr.

(** [UploadHandler.generateUniqueS3Key]; [timestamp] and [randomBytes] are
    what [utils.GenerateUniqueKey] reads from the clock and from
    [crypto/rand]. *)
Definition generateUniqueS3Key (timestamp : Z) (randomBytes : gostring)
    (requestedKey filePath : gostring) : gostring :=
  let ext := Ext filePath in
  let requestedKey :=
    if bool_decide (Ext requestedKey = []) then requestedKey ++ ext
    else requestedKey in
  let safeName := Utils.SanitizeFilename requestedKey in
  Utils.GenerateUniqueKey timestamp randomBytes safeName.

(** ** The two request handlers *)

(** [time.Duration(req.Timeout) * time.Second], a product of [int64]
    values, and the default taken when it is zero; in nanoseconds. *)
Definition second : Z := 1000000000.
Definition minute : Z := 60 * second.

Definition effectiveTimeout (default timeout : Z) : Z :=
  let d := wrap64 (timeout * second) in
  if d =? 0 then default else d.

(** [DownloadHandler.generateDownloadFilename]. *)
Definition generateDownloadFilename (filePath : gostring)
    (videoInfo : option Ytdlp.VideoInfo) : gostring :=
  let ext := Ext filePath in
  let ext := if bool_decide (ext = []) then str ".mp4" else ext in
  let baseName :=
    match videoInfo with
    | Some i =>
        if bool_decide (Ytdlp.Title i <> [])
        then Utils.SanitizeFilename (Ytdlp.Title i)
        else str "video"
    | None => str "video"
    end in
  baseName ++ ext.

(** The request bodies, as decoded from JSON. *)
Record DownloadRequest := {
  DURL : gostring;
  DOptions : option Ytdlp.Options;
  DTimeout : Z
}.

Record UploadRequest := {
  UURL : gostring;
  US3Key : gostring;
  UOptions : option Ytdlp.Options;
  UTimeout : Z
}.

(** [c.ShouldBindJSON]: [None] stands for a body that does not decode; a
    field tagged [binding:"required"] must not be empty. *)
Definition bindDownload (body : option DownloadRequest) : option DownloadRequest :=
  r ← body;
  if bool_decide (DURL r = []) then None else Some r.

Definition bindUpload (body : option UploadRequest) : option UploadRequest :=
  r ← body;
  if bool_decide (UURL r = []) || bool_decide (US3Key r = []) then None
  else Some r.

(** What a handler reads from outside: the fetcher's surroundings under a
    context with the given timeout (in nanoseconds), whether the deferred
    removal of the download directory fails, what opening an entry that is
    not a readable regular file gives, and for the upload the clock and
    random bytes of the key. *)
Record Surroundings := {
  fetcher : Z -> Ytdlp.Env;
  removeFails : bool;
  special : Ytdlp.DirEntry -> option Z;
  keyTime : Z;
  keyBytes : gostring
}.

(** The response of [POST /download]: an error document, or the status and
    headers of [c.DataFromReader] with the bytes the copy from the reader
    delivered (none when reading fails). *)
Inductive DownloadResponse :=
| DownloadError (status : Z) (code : string)
| Stream (status : Z) (contentType filename : gostring) (contentLength : Z)
         (body : gostring).

(** [DownloadHandler.Handle]. The deferred [CleanupFile] runs when the
    handler returns, after the response is written. *)
Definition DownloadHandle (x : Surroundings) (body : option DownloadRequest)
    (w : Ytdlp.World) : DownloadResponse * Ytdlp.World :=
  match bindDownload body with
  | None =>
      (DownloadError 400 "bad_request",
       Ytdlp.log LWarn "Invalid download request" w)
  | Some req =>
      let timeout := effectiveTimeout (5 * minute) (DTimeout req) in
      let w := Ytdlp.log LInfo "Starting video download" w in
      let '(r, w) := Ytdlp.DownloadVideo (fetcher x timeout) (DURL req) (DOptions req) w in
      match Ytdlp.err r with
      | Some _ =>
          (DownloadError 500 "download_failed",
           Ytdlp.log LError "Failed to download video" w)
      | None =>
          let filePath := Ytdlp.filePath r in
          let cleanup (w : Ytdlp.World) :=
            let '(ok, w) := Ytdlp.CleanupFile (removeFails x) filePath w in
            if ok then w else Ytdlp.log LError "Failed to cleanup file" w in
          match Ytdlp.GetVideoReader (special x) filePath w with
          | None =>
              (DownloadError 500 "file_read_error",
               cleanup (Ytdlp.log LError "Failed to open video file for reading" w))
          | Some reader =>
              let fileSize := Ytdlp.size reader in
              let filename := generateDownloadFilename filePath (Ytdlp.info r) in
              let contentType := Utils.GetContentType filePath in
              (Stream 200 contentType filename fileSize
                      (default [] (Ytdlp.bytes reader)),
               cleanup (Ytdlp.log LInfo "Streaming video file" w))
          end
      end
  end.

(** The response of [POST /upload]. *)
Inductive UploadFailure :=
| InvalidBody
| DownloadFailed (e : Ytdlp.DownloadError)
| UploadFailed (e : S3.Error).

Record UploadResponse := {
  Status : Z;
  Success : bool;
  Result : option S3.UploadResult;
  Failure : option UploadFailure
}.

(** The disk and the storage an upload request works on. *)
Record System := {
  disk : Ytdlp.World;
  storage : S3.World
}.

(** The uploader opens one local file, the downloaded one: its local files
    are what the disk holds at that path. A regular file is read as it is; an
    entry that opens but cannot be read fails at the first read. *)
Definition localView (special : Ytdlp.DirEntry -> option Z)
    (filePath : gostring) (w : Ytdlp.World) : gmap gostring S3.LocalFile :=
  match Ytdlp.openFile special filePath w with
  | Some opened =>
      {[ filePath :=
           {| S3.content := default [] (Ytdlp.bytes opened);
              S3.statFails := false;
              S3.readFails := bool_decide (Ytdlp.bytes opened = None);
              S3.seekFails := false |} ]}
  | None => ∅
  end.

Definition withFiles (files : gmap gostring S3.LocalFile) (s : S3.World) : S3.World :=
  {| S3.objects := S3.objects s; S3.files := files; S3.faults := S3.faults s;
     S3.clock := S3.clock s; S3.logs := S3.logs s |}.

(** [UploadHandler.Handle]. *)
Definition UploadHandle (x : Surroundings) (svc : S3.Service)
    (body : option UploadRequest) (sys : System) : UploadResponse * System :=
  match bindUpload body with
  | None =>
      ({| Status := 400; Success := false; Result := None;
          Failure := Some InvalidBody |},
       {| disk := Ytdlp.log LWarn "Invalid upload request" (disk sys);
          storage := storage sys |})
  | Some req =>
      let timeout := effectiveTimeout (10 * minute) (UTimeout req) in
      let w := Ytdlp.log LInfo "Starting video download and S3 upload" (disk sys) in
      let '(r, w) := Ytdlp.DownloadVideo (fetcher x timeout) (UURL req) (UOptions req) w in
      match Ytdlp.err r with
      | Some e =>
          ({| Status := 500; Success := false; Result := None;
              Failure := Some (DownloadFailed e) |},
           {| disk := Ytdlp.log LError "Failed to download video" w;
              storage := storage sys |})
      | None =>
          let filePath := Ytdlp.filePath r in
          let cleanup (w : Ytdlp.World) :=
            let '(ok, w) := Ytdlp.CleanupFile (removeFails x) filePath w in
            if ok then w else Ytdlp.log LError "Failed to cleanup file" w in
          let uniqueKey :=
            generateUniqueS3Key (keyTime x) (keyBytes x) (US3Key req) filePath in
          let '(u, s) :=
            S3.UploadVideoWithMetadata svc filePath uniqueKey (Ytdlp.info r)
              (withFiles (localView (special x) filePath w) (storage sys)) in
          match u with
          | inl e =>
              ({| Status := 500; Success := false; Result := None;
                  Failure := Some (UploadFailed e) |},
               {| disk := cleanup (Ytdlp.log LError "Failed to upload to S3" w);
                  storage := s |})
          | inr uploadResult =>
              ({| Status := 200; Success := true; Result := Some uploadResult;
                  Failure := None |},
               {| disk := cleanup (Ytdlp.log LInfo "Video uploaded successfully to S3" w);
                  storage := s |})
          end
      end
  end.

End Handlers.

(* ===================================================================== *)
(** * SHA-256 (FIPS 180-4), as [crypto/sha256.Sum256]                     *)
(* ===================================================================== *)

Module Sha256.

Definition w32 (z : Z) : Z := z mod 2 ^ 32.
Definition add32 (a b : Z) : Z := w32 (a + b).
Definition rotr (n x : Z) : Z := w32 (Z.lor (Z.shiftr x n) (Z.shiftl x (32 - n))).
Definition shr (n x : Z) : Z := Z.shiftr x n.
Definition not32 (x : Z) : Z := w32 (Z.lnot x).

Definition Ch (x y z : Z) : Z := Z.lxor (Z.land x y) (Z.land (not32 x) z).
Definition Maj (x y z : Z) : Z :=
  Z.lxor (Z.lxor (Z.land x y) (Z.land x z)) (Z.land y z).
Definition Sigma0 (x : Z) : Z := Z.lxor (Z.lxor (rotr 2 x) (rotr 13 x)) (rotr 22 x).
Definition Sigma1 (x : Z) : Z := Z.lxor (Z.lxor (rotr 6 x) (rotr 11 x)) (rotr 25 x).
Definition sigma0 (x : Z) : Z := Z.lxor (Z.lxor (rotr 7 x) (rotr 18 x)) (shr 3 x).
Definition sigma1 (x : Z) : Z := Z.lxor (Z.lxor (rotr 17 x) (rotr 19 x)) (shr 10 x).

(** The primes below 312: the first sixty-four. *)
Definition isPrime (n : nat) : bool :=
  (1 <? n)%nat && forallb (fun d => negb (n mod d =? 0)%nat) (seq 2 (n - 2)).

Definition primes : list Z := map Z.of_nat (filter isPrime (seq 2 310)).

(** The largest [r] in [[lo, lo + 2^bits)] with [r^3 <= n], bit by bit. *)
Fixpoint cubeRootBits (bits : nat) (lo n : Z) : Z :=
  match bits with
  | O => lo
  | S b =>
      let mid := lo + 2 ^ Z.of_nat b in
      if mid * mid * mid <=? n then cubeRootBits b mid n else cubeRootBits b lo n
  end.

(** The round constants: the first 32 bits of the fractional parts of the
    cube roots of the first sixty-four primes. *)
Definition K : list Z := Eval vm_compute in
  map (fun p => w32 (cubeRootBits 36 0 (p * 2 ^ 96))) primes.

(** The initial hash value: the first 32 bits of the fractional parts of
    the square roots of the first eight primes. *)
Definition H0 : list Z := Eval vm_compute in
  map (fun p => w32 (Z.sqrt (p * 2 ^ 64))) (take 8 primes).

Definition byteZ (c : ascii) : Z := Z.of_N (N_of_ascii c).

(** Big-endian bytes of [z], [n] of them. *)
Fixpoint beBytes (n : nat) (z : Z) : list Z :=
  match n with
  | O => []
  | S n' => (Z.shiftr z (8 * Z.of_nat n')) mod 256 :: beBytes n' z
  end.

(** The message followed by the bit 1, zero bits up to 56 mod 64 bytes,
    and the bit length on eight bytes. *)
Definition pad (msg : list Z) : list Z :=
  let len := length msg in
  let zeros := ((119 - len mod 64) mod 64)%nat in
  msg ++ 0x80 :: repeat 0 zeros ++ beBytes 8 (8 * Z.of_nat len).

Fixpoint words (fuel : nat) (bs : list Z) : list Z :=
  match fuel, bs with
  | S f, b0 :: b1 :: b2 :: b3 :: rest =>
      (((b0 * 256 + b1) * 256 + b2) * 256 + b3) :: words f rest
  | _, _ => []
  end.

(** The message schedule; [recent] holds the last sixteen words, newest
    first. *)
Fixpoint schedule (n : nat) (recent : list Z) : list Z :=
  match n with
  | O => []
  | S n' =>
      let w :=
        add32 (add32 (sigma1 (nth 1 recent 0)) (nth 6 recent 0))
              (add32 (sigma0 (nth 14 recent 0)) (nth 15 recent 0)) in
      w :: schedule n' (w :: take 15 recent)
  end.

Definition round (st : list Z) (kw : Z * Z) : list Z :=
  match st with
  | [a; b; c; d; e; f; g; h] =>
      let t1 := add32 (add32 (add32 h (Sigma1 e)) (add32 (Ch e f g) (fst kw))) (snd kw) in
      let t2 := add32 (Sigma0 a) (Maj a b c) in
      [add32 t1 t2; a; b; c; add32 d t1; e; f; g]
  | _ => st
  end.

Definition zipAdd (x y : list Z) : list Z :=
  map (fun p => add32 (fst p) (snd p)) (combine x y).

Definition compress (h : list Z) (block : list Z) : list Z :=
  let w16 := words 16 block in
  let w := w16 ++ schedule 48 (rev w16) in
  zipAdd h (fold_left round (combine K w) h).

Fixpoint blocks (fuel : nat) (bs : list Z) (h : list Z) : list Z :=
  match fuel with
  | O => h
  | S f =>
      match bs with
      | [] => h
      | _ => blocks f (drop 64 bs) (compress h (take 64 bs))
      end
  end.

(** [sha256.Sum256]: the 32 bytes of the digest. *)
Definition Sum256 (data : gostring) : gostring :=
  let padded := pad (map byteZ data) in
  let h := blocks (length padded) padded H0 in
  map (fun z => ascii_of_N (Z.to_N z)) (flat_map (beBytes 4) h).

End Sha256.

(* ===================================================================== *)
(** * Package middlewares: bearer-token authentication                    *)
(* ===================================================================== *)

Module Auth.
Import GoStr.

Record AuthConfig := {
  Enabled : bool;
  APIKey : gostring
}.

(** The part of a request the middleware reads. *)
Record Request := {
  Authorization : option gostring;
  ClientIP : gostring
}.

(** [c.GetHeader]: the empty string when the header is absent. *)
Definition GetHeader (r : Request) : gostring := default [] (Authorization r).

(** The JSON body [gin.H{"error": ..., "message": ...}]. *)
Record ErrorBody := {
  error : string;
  message : string
}.

(** What the middleware does with the request: [Next] hands it to the
    remaining handlers; [Abort] writes the response and stops the chain, so
    that no later handler runs. *)
Inductive Decision :=
| Next
| Abort (status : Z) (body : ErrorBody).

Definition StatusUnauthorized : Z := 401.

(** [AuthMiddleware.hashKey]: [%x] of the SHA-256 digest. *)
Definition hashKey (key : gostring) : gostring :=
  EncodeToString (Sha256.Sum256 key).

(** [AuthMiddleware.validateAPIKey]. *)
Definition validateAPIKey (cfg : AuthConfig) (providedKey : gostring) : bool :=
  let providedHash := hashKey providedKey in
  let expectedHash := APIKey cfg in
  bool_decide (providedHash = expectedHash).

Definition unauthorized (msg : string) : Decision :=
  Abort StatusUnauthorized {| error := "unauthorized"; message := msg |}.

(** The handler function returned by [AuthMiddleware.Authenticate], with
    the lines it logs. *)
Definition Authenticate (cfg : AuthConfig) (r : Request)
  : Decision * list LogLine :=
  if negb (Enabled cfg) then (Next, [])
  else
    let authHeader := GetHeader r in
    if bool_decide (authHeader = []) then
      (unauthorized "Authorization header is required",
       [(LWarn, "Missing Authorization header"%string)])
    else
      match SplitN2 authHeader with
      | [scheme; providedKey] =>
          if bool_decide (ToLower scheme <> str "bearer") then
            (unauthorized "Authorization header must be in format: Bearer <token>",
             [(LWarn, "Invalid Authorization header format"%string)])
          else if negb (validateAPIKey cfg providedKey) then
            (unauthorized "Invalid API key",
             [(LWarn, "Invalid API key provided"%string)])
          else (Next, [(LDebug, "API key validated successfully"%string)])
      | _ =>
          (unauthorized "Authorization header must be in format: Bearer <token>",
           [(LWarn, "Invalid Authorization header format"%string)])
      end.

(** The router's chain for one route: the middleware, then the route's
    handler unless the middleware aborted. *)
Definition serve {Resp} (cfg : AuthConfig) (handler : Request -> Resp)
    (r : Request) : Decision * option Resp :=
  match fst (Authenticate cfg r) with
  | Next => (Next, Some (handler r))
  | Abort st b => (Abort st b, None)
  end.

End Auth.

(* ===================================================================== *)
(** * Vocabulary of the properties                                        *)
(* ===================================================================== *)

Module Props.
Import GoStr.

(** A byte of the class [a-zA-Z0-9\-_.]. *)
Definition safe (c : ascii) : Prop := Utils.safeByte c = true.

(** Reading lower-case hexadecimal back, as [hex.DecodeString]. *)
Definition hexVal (c : ascii) : N :=
  if (byteVal c <? 58)%N then (byteVal c - 48)%N else (byteVal c - 87)%N.

Fixpoint DecodeString (s : gostring) : gostring :=
  match s with
  | hi :: lo :: rest => ascii_of_N (16 * hexVal hi + hexVal lo) :: DecodeString rest
  | _ => []
  end.

(** A character of a decimal numeral, and of a hexadecimal one. *)
Definition decChar (c : ascii) : Prop := inRange 48 57 c = true \/ c = "-"%char.
Definition hexChar (c : ascii) : Prop :=
  inRange 48 57 c = true \/ inRange 97 102 c = true.

(** The key the upload handler derives, as a function of the clock and
    of the random bytes. *)
Definition keyAt (requestedKey filePath : gostring) (ts : Z) (rnd : gostring) :=
  Handlers.generateUniqueS3Key ts rnd requestedKey filePath.

(** The log lines of an upload. *)
Definition lineStart : LogLine := (LInfo, "Starting video and metadata upload"%string).
Definition lineDone : LogLine := (LInfo, "Video and metadata uploaded successfully"%string).
Definition lineMetaFailed : LogLine :=
  (LError, "Failed to upload metadata, cleaning up video"%string).
Definition lineDeleted : LogLine :=
  (LInfo, "File deleted from S3-compatible storage"%string).
Definition lineDeleteFailed : LogLine :=
  (LError, "Failed to delete object from S3-compatible storage"%string).
Definition lineCleanupFailed : LogLine :=
  (LError, "Failed to cleanup video after metadata upload failure"%string).

(** A video object without its metadata object. *)
Definition orphaned (key : gostring) (w : S3.World) : Prop :=
  is_Some (S3.objects w !! key)
  /\ S3.objects w !! S3.getMetadataKey key = None.

(** What an upload leaves behind, by outcome. *)
Definition uploadOutcome (key : gostring) (w : S3.World)
    (r : S3.Error + S3.UploadResult) (w' : S3.World) : Prop :=
  let mkey := S3.getMetadataKey key in
  match r with
  | inr res =>
      exists vobj mobj,
        S3.objects w' = <[mkey := mobj]> (<[key := vobj]> (S3.objects w))
        /\ S3.Key (S3.VideoUpload res) = key
        /\ S3.Key (S3.MetadataUpload res) = mkey
        /\ S3.Size (S3.VideoUpload res) = Z.of_nat (length (S3.oBody vobj))
        /\ S3.Size (S3.MetadataUpload res) = Z.of_nat (length (S3.oBody mobj))
        /\ S3.logs w' = S3.logs w ++ [lineStart; lineDone]
  | inl e =>
      (exists cause,
          e = S3.Wrap "failed to upload video" cause
          /\ S3.objects w' = S3.objects w
          /\ S3.logs w' = S3.logs w ++ [lineStart])
      \/ (exists cause,
             e = S3.Wrap "failed to upload metadata" cause
             /\ ((S3.objects w' = delete key (S3.objects w)
                  /\ S3.logs w' = S3.logs w ++ [lineStart; lineMetaFailed; lineDeleted])
                 \/ (exists vobj,
                        S3.objects w' = <[key := vobj]> (S3.objects w)
                        /\ S3.logs w' =
                           S3.logs w ++ [lineStart; lineMetaFailed;
                                         lineDeleteFailed; lineCleanupFailed])))
  end.

(** ** The fetcher *)

(** A JSON-extension entry, and a media entry: a non-directory entry
    without the JSON extension. *)
Definition isJSON (f : Ytdlp.DirEntry) : bool :=
  bool_decide (Ext (Ytdlp.Name f) = str ".json").

Definition isMedia (f : Ytdlp.DirEntry) : bool :=
  negb (isJSON f) && negb (Ytdlp.IsDir f).

(** The path the scan records for a chosen entry; empty for none. *)
Definition pathOf (dir : gostring) (f : option Ytdlp.DirEntry) : gostring :=
  match f with
  | Some f => Join dir (Ytdlp.Name f)
  | None => []
  end.

Definition lastOf (p : Ytdlp.DirEntry -> bool) (files : list Ytdlp.DirEntry) :=
  find p (rev files).

(** The call up to the return of the external tool: the tool's verdict
    and the world it leaves, or [None] when the directory could not be
    created. *)
Definition toolRun (e : Ytdlp.Env) (url : gostring)
    (options : option Ytdlp.Options) (w : Ytdlp.World)
  : option (bool * Ytdlp.World) :=
  let dir := Ytdlp.uniqueDirOf e in
  w1 ← Ytdlp.MkdirAll e dir (Ytdlp.log LInfo "Starting video download" w);
  Some (Ytdlp.Run e (Ytdlp.buildArgs dir url options) dir w1).

(** The sidecar is missing, unreadable or unparsable. *)
Definition sidecarUnusable (e : Ytdlp.Env) (infoFile : gostring)
    (w : Ytdlp.World) : Prop :=
  infoFile = []
  \/ Ytdlp.ReadFile infoFile w = None
  \/ exists data, Ytdlp.ReadFile infoFile w = Some data
                /\ Ytdlp.unmarshal e data = None.

(** ** Authentication *)

(** A header of two space-separated parts, the scheme and the token,
    whose scheme is "bearer" in any letter case. *)
Definition bearerHeader (header token : gostring) : Prop :=
  exists scheme,
    header = scheme ++ space :: token
    /\ ~ In space scheme
    /\ ToLower scheme = str "bearer".

(** The three ways a request fails authentication. *)
Definition badCredentials (cfg : Auth.AuthConfig) (r : Auth.Request) : Prop :=
  Auth.Authorization r = None
  \/ (forall token, ~ bearerHeader (Auth.GetHeader r) token)
  \/ (exists token, bearerHeader (Auth.GetHeader r) token
                   /\ Auth.hashKey token <> Auth.APIKey cfg).

(** A hexadecimal digit in upper case. *)
Definition upperHex (c : ascii) : ascii :=
  if inRange 97 102 c then ascii_of_N (byteVal c - 32) else c.

(** The response of a rejected request. *)
Definition rejects (cfg : Auth.AuthConfig) (r : Auth.Request) : Prop :=
  exists msg,
    fst (Auth.Authenticate cfg r)
    = Auth.Abort 401 {| Auth.error := "unauthorized"; Auth.message := msg |}.

(** ** Further vocabulary *)

(** The four arguments every invocation of the tool starts with. *)
Definition fixedArgs (dir : gostring) : list gostring :=
  [str "--no-playlist"; str "--output";
   Join dir (str "%(title)s.%(ext)s"); str "--write-info-json"].

(** An option record that differs in the output path only. *)
Definition withOutputPath (p : gostring) (o : Ytdlp.Options) : Ytdlp.Options :=
  {| Ytdlp.OFormat := Ytdlp.OFormat o; Ytdlp.AudioOnly := Ytdlp.AudioOnly o;
     Ytdlp.VideoOnly := Ytdlp.VideoOnly o; Ytdlp.Quality := Ytdlp.Quality o;
     Ytdlp.OutputPath := p; Ytdlp.ExtraArgs := Ytdlp.ExtraArgs o;
     Ytdlp.MaxFileSize := Ytdlp.MaxFileSize o |}.

(** A directory-entry name: it holds no path separator. *)
Definition plainName (f : Ytdlp.DirEntry) : Prop := ~ In slash (Ytdlp.Name f).


End Props.
(* ===================================================================== *)
(** * Concrete services, worlds and requests                              *)
(* ===================================================================== *)

Module Demo.
Import GoStr.

(** ** An uploader and its bucket *)

Definition service : S3.Service :=
  {| S3.config :=
       {| S3.AccessKeyID := str "AKIDEXAMPLE";
          S3.SecretAccessKey := str "secret";
          S3.Region := str "us-east-1";
          S3.Bucket := str "videos";
          S3.Endpoint := str "http://minio:9000" |};
     S3.md5hex := fun body => EncodeToString (take 16 (Sha256.Sum256 body));
     S3.marshalIndent := fun m =>
       Some (str "{ original_filename: " ++ S3.original_filename m ++ str " }");
     S3.rfc3339 := fmtInt;
     S3.etagOf := fun body => S3.quote :: EncodeToString (take 4 body) ++ [S3.quote] |}.

Definition localPath : gostring := str "/tmp/ytdlp-downloads/download_17/clip.mp4".
Definition videoKey : gostring := str "1700000000_deadbeef_clip.mp4".

(** An empty bucket, the downloaded file on disk, and a script for the
    storage client. *)
Definition world (script : list bool) : S3.World :=
  {| S3.objects := ∅;
     S3.files :=
       {[ localPath := {| S3.content := str "MOVIEDATA";
                          S3.statFails := false;
                          S3.readFails := false;
                          S3.seekFails := false |} ]};
     S3.faults := script;
     S3.clock := 1700000000;
     S3.logs := [] |}.

(** The video put succeeds, the metadata put fails, the delete fails. *)
Definition brokenLink : list bool := [false; true; true].

Definition uploadOK :=
  S3.UploadVideoWithMetadata service localPath videoKey None (world []).
Definition uploadBroken :=
  S3.UploadVideoWithMetadata service localPath videoKey None (world brokenLink).

Definition uploadedResult : S3.UploadResult :=
  match fst uploadOK with
  | inr res => res
  | inl _ =>
      let none := {| S3.Key := []; S3.FBucket := []; S3.Location := [];
                     S3.ETag := []; S3.Size := 0; S3.ContentType := [];
                     S3.MD5Hash := [] |} in
      {| S3.VideoUpload := none; S3.MetadataUpload := none;
         S3.TotalSize := 0; S3.UploadedAt := 0 |}
  end.

(** ** A fetcher and its temp root *)

Definition mediaB : Ytdlp.DirEntry :=
  {| Ytdlp.Name := str "clip.mp4"; Ytdlp.IsDir := false;
     Ytdlp.Data := Some (str "BBBB") |}.
Definition sidecar (body : string) : Ytdlp.DirEntry :=
  {| Ytdlp.Name := str "clip.info.json"; Ytdlp.IsDir := false;
     Ytdlp.Data := Some (str body) |}.

Definition someInfo : Ytdlp.VideoInfo :=
  {| Ytdlp.ID := str "abc123"; Ytdlp.Title := str "clip";
     Ytdlp.Duration := 12%float; Ytdlp.Uploader := str "someone";
     Ytdlp.UploadDate := str "20240101"; Ytdlp.ViewCount := 7;
     Ytdlp.Format := str "137"; Ytdlp.Filename := str "clip.mp4";
     Ytdlp.Filesize := 4; Ytdlp.URL := str "https://example/video";
     Ytdlp.Thumbnail := []; Ytdlp.Description := [] |}.

Definition downloadDir : gostring :=
  str "/tmp/ytdlp-downloads/download_1700000000000000017".

(** A fetcher whose tool ends with [ok] and leaves [entries] in the call's
    directory; its parser accepts one document only. *)
Definition env (ok : bool) (entries : list Ytdlp.DirEntry) : Ytdlp.Env :=
  {| Ytdlp.tmpDir := str "/tmp/ytdlp-downloads";
     Ytdlp.nowNano := 1700000000000000017;
     Ytdlp.mkdirFails := false;
     Ytdlp.tool := fun _ disk => (ok, <[downloadDir := entries]> disk);
     Ytdlp.readDirFails := false;
     Ytdlp.removeAllFails := false;
     Ytdlp.unmarshal := fun data =>
       if bool_decide (data = str "{}") then Some someInfo else None |}.


(** The same fetcher at a later reading of the clock. *)
Definition laterEnv (ok : bool) (entries : list Ytdlp.DirEntry) : Ytdlp.Env :=
  {| Ytdlp.tmpDir := Ytdlp.tmpDir (env ok entries);
     Ytdlp.nowNano := 1700000000000000018;
     Ytdlp.mkdirFails := false;
     Ytdlp.tool := fun _ disk =>
       (ok, <[str "/tmp/ytdlp-downloads/download_1700000000000000018" := entries]> disk);
     Ytdlp.readDirFails := false;
     Ytdlp.removeAllFails := false;
     Ytdlp.unmarshal := Ytdlp.unmarshal (env ok entries) |}.

Definition emptyDisk : Ytdlp.World := {| Ytdlp.fs := ∅; Ytdlp.logs := [] |}.

Definition url : gostring := str "https://example/video".

(** ** A download request and what surrounds its handler *)






(** An upload under a key that ends in ".json". *)
Definition jsonKey : gostring := str "1700000000_deadbeef_clip.json".

Definition uploadJSON :=
  S3.UploadVideoWithMetadata service localPath jsonKey None (world []).


(** ** Authentication *)

Definition token : gostring := str "s3cret".

Definition digest : gostring :=
  str "1ec1c26b50d5d3c58d9583181af8076655fe00756bf7285940ba3670f99fcba0".

Definition authOn : Auth.AuthConfig :=
  {| Auth.Enabled := true; Auth.APIKey := digest |}.

(** The same digest, configured in upper case. *)
Definition authUpper : Auth.AuthConfig :=
  {| Auth.Enabled := true; Auth.APIKey := map Props.upperHex digest |}.

(** The raw token configured where its digest belongs. *)
Definition authRaw : Auth.AuthConfig :=
  {| Auth.Enabled := true; Auth.APIKey := token |}.

Definition request (header : option string) : Auth.Request :=
  {| Auth.Authorization := option_map str header;
     Auth.ClientIP := str "10.0.0.1" |}.

(** ** A name that is cut inside a run of underscores *)

Definition longName : gostring := repeat "a"%char 99 ++ str "_b".

End Demo.

(* ===================================================================== *)
(** * Facts about the path helpers                                        *)
(* ===================================================================== *)

Section PathFacts.
Import GoStr.

Lemma extLoop_shape (r acc : gostring) :
  extLoop r acc = []
  \/ exists r1 r2, r = r1 ++ dot :: r2
                 /\ extLoop r acc = dot :: rev r1 ++ acc
                 /\ Forall (fun c => c <> slash /\ c <> dot) r1.
Proof.
  revert acc. induction r as [|c r IH]; intros acc; simpl; [now left|].
  destruct (Ascii.eqb_spec c slash) as [->|Hs]; [now left|].
  destruct (Ascii.eqb_spec c dot) as [->|Hd].
  - right. exists [], r. simpl. auto.
  - destruct (IH (c :: acc)) as [E|(r1 & r2 & -> & E & F)]; [now left|].
    right. exists (c :: r1), r2. simpl. repeat split; auto.
    rewrite E. now rewrite <- app_assoc.
Qed.

(** The extension is a suffix of the path. *)
Lemma Ext_suffix (path : gostring) :
  exists base, path = base ++ Ext path.
Proof.
  unfold Ext. destruct (extLoop_shape (rev path) []) as [E|(r1 & r2 & Hr & E & _)].
  - rewrite E. exists path. now rewrite app_nil_r.
  - rewrite E, app_nil_r. exists (rev r2).
    rewrite <- (rev_involutive path), Hr, rev_app_distr. simpl.
    now rewrite <- app_assoc.
Qed.

Lemma HasSuffix_app (a b : gostring) : HasSuffix (a ++ b) b = true.
Proof.
  unfold HasSuffix. rewrite length_app.
  apply andb_true_intro; split.
  - apply Nat.leb_le. lia.
  - apply bool_decide_eq_true.
    replace (length a + length b - length b)%nat with (length a) by lia.
    apply drop_app_length.
Qed.

Lemma TrimSuffix_app (a b : gostring) : TrimSuffix (a ++ b) b = a.
Proof.
  unfold TrimSuffix. rewrite HasSuffix_app, length_app.
  replace (length a + length b - length b)%nat with (length a) by lia.
  apply take_app_length.
Qed.

Lemma HasSuffix_true (s suf : gostring) :
  HasSuffix s suf = true -> exists a, s = a ++ suf.
Proof.
  unfold HasSuffix. intros H. apply andb_prop in H as [_ H].
  apply bool_decide_eq_true in H.
  exists (take (length s - length suf)%nat s).
  rewrite <- (take_drop (length s - length suf)%nat s) at 1.
  now rewrite H.
Qed.

Lemma Ext_app_json (a : gostring) : Ext (a ++ str ".json") = str ".json".
Proof. unfold Ext. rewrite rev_app_distr. reflexivity. Qed.

Lemma stem_ext (key : gostring) : key = S3.stem key ++ Ext key.
Proof.
  unfold S3.stem. destruct (Ext_suffix key) as [b Hb].
  rewrite Hb at 2. rewrite TrimSuffix_app. exact Hb.
Qed.

(** The extension holds no path separator. *)
Lemma Ext_no_slash (path : gostring) : Forall (fun c => c <> slash) (Ext path).
Proof.
  unfold Ext. destruct (extLoop_shape (rev path) []) as [E|(r1 & r2 & _ & E & F)];
    rewrite E; [constructor|].
  constructor; [discriminate|]. rewrite app_nil_r. apply Forall_rev.
  eapply Forall_impl; [exact F|]. now intros c [H _].
Qed.

Lemma fromSlash_app (r1 r : gostring) :
  Forall (fun c => c <> slash) r1 -> S3.fromSlash (r1 ++ r) = S3.fromSlash r.
Proof.
  induction 1 as [|c r1 Hc _ IH]; simpl; [reflexivity|].
  now destruct (Ascii.eqb_spec c slash).
Qed.

(** Text without a slash appended to a key leaves its directory prefix. *)
Lemma dirPrefix_app (a b : gostring) :
  Forall (fun c => c <> slash) b -> S3.dirPrefix (a ++ b) = S3.dirPrefix a.
Proof.
  intros H. unfold S3.dirPrefix. rewrite rev_app_distr.
  rewrite fromSlash_app; [reflexivity|]. now apply Forall_rev.
Qed.

Lemma getMetadataKey_stem (k : gostring) :
  S3.getMetadataKey k = S3.stem k ++ str ".json".
Proof. reflexivity. Qed.

Lemma getMetadataKey_ext (k : gostring) : Ext (S3.getMetadataKey k) = str ".json".
Proof. rewrite getMetadataKey_stem. apply Ext_app_json. Qed.

Lemma getMetadataKey_same_stem (k : gostring) :
  S3.stem (S3.getMetadataKey k) = S3.stem k.
Proof.
  unfold S3.stem at 1. rewrite getMetadataKey_ext, getMetadataKey_stem.
  apply TrimSuffix_app.
Qed.

Lemma getMetadataKey_same_dir (k : gostring) :
  S3.dirPrefix (S3.getMetadataKey k) = S3.dirPrefix k.
Proof.
  rewrite getMetadataKey_stem. rewrite (stem_ext k) at 2.
  rewrite !dirPrefix_app; [reflexivity|apply Ext_no_slash|].
  repeat constructor; discriminate.
Qed.

Lemma getMetadataKey_idem (k : gostring) :
  S3.getMetadataKey (S3.getMetadataKey k) = S3.getMetadataKey k.
Proof.
  rewrite (getMetadataKey_stem (S3.getMetadataKey k)).
  now rewrite getMetadataKey_same_stem.
Qed.

Lemma getMetadataKey_fixed (k : gostring) :
  S3.getMetadataKey k = k <-> Ext k = str ".json".
Proof.
  split; intros H.
  - rewrite <- H at 1. apply getMetadataKey_ext.
  - rewrite getMetadataKey_stem, <- H. symmetry. apply stem_ext.
Qed.

Lemma getMetadataKey_json (k : gostring) :
  HasSuffix k (str ".json") = true -> S3.getMetadataKey k = k.
Proof.
  intros H. apply HasSuffix_true in H as [a ->].
  apply getMetadataKey_fixed, Ext_app_json.
Qed.

End PathFacts.

(* ===================================================================== *)
(** * Facts about the uploader                                            *)
(* ===================================================================== *)

Section UploaderFacts.
Import GoStr S3 Props.

Local Ltac run :=
  cbv [UploadVideoWithMetadata uploadFile uploadMetadata DeleteFile DeleteObject
       PutObject Open guard nextFault now log attempt wrapErr bind ret throw
       setObjects]; cbn [objects files faults clock logs].

Local Arguments Utils.GetContentType : simpl never.
Local Arguments Base : simpl never.
Local Arguments TrimByte : simpl never.
Local Arguments getMetadataKey : simpl never.
Local Arguments add64 : simpl never.

(** Case analysis on the scripted outcomes the run consumes. *)
Local Ltac script :=
  repeat match goal with
         | |- context [match ?l with [] => _ | _ :: _ => _ end] =>
             destruct l as [|[] ?]; cbn
         | |- context [marshalIndent ?s ?m] =>
             destruct (marshalIndent s m); cbn
         end.

Local Ltac logs_assoc := rewrite <- ?app_assoc; cbn [app].

(** Every run of [UploadVideoWithMetadata] ends in one of four ways. *)
Lemma upload_outcome (s : Service) (filePath key : gostring)
    (info : option Ytdlp.VideoInfo) (w : World) :
  uploadOutcome key w
    (fst (UploadVideoWithMetadata s filePath key info w))
    (snd (UploadVideoWithMetadata s filePath key info w)).
Proof.
  unfold uploadOutcome. run.
  destruct (files w !! filePath) as [f|]; cbn;
    [|left; eexists; repeat split; reflexivity].
  destruct (statFails f); cbn; [left; eexists; repeat split; reflexivity|].
  destruct (readFails f); cbn; [left; eexists; repeat split; reflexivity|].
  destruct (seekFails f); cbn; [left; eexists; repeat split; reflexivity|].
  script; logs_assoc; rewrite ?delete_insert_eq;
    first
      [ solve [left; eexists; repeat split; reflexivity]
      | solve [eexists _, _; repeat split; reflexivity]
      | solve [right; eexists; split; [reflexivity|]; left; split; reflexivity]
      | solve [right; eexists; split; [reflexivity|]; right; eexists;
               split; reflexivity] ].
Qed.

(** The combined size is the [int64] sum of the two sizes. *)
Lemma upload_total (s : Service) (filePath key : gostring)
    (info : option Ytdlp.VideoInfo) (w : World) res w' :
  UploadVideoWithMetadata s filePath key info w = (inr res, w') ->
  TotalSize res = add64 (Size (VideoUpload res)) (Size (MetadataUpload res)).
Proof.
  run.
  destruct (files w !! filePath) as [f|]; cbn; [|discriminate].
  destruct (statFails f); cbn; [discriminate|].
  destruct (readFails f); cbn; [discriminate|].
  destruct (seekFails f); cbn; [discriminate|].
  script; try discriminate; intros [= <- _]; reflexivity.
Qed.

End UploaderFacts.

(* ===================================================================== *)
(** * Facts about sanitization                                            *)
(* ===================================================================== *)

Section TrimFacts.
Import GoStr.
Variable c : ascii.

Lemma trimLeftByte_suffix (s : gostring) :
  exists p, s = p ++ trimLeftByte s c.
Proof.
  induction s as [|x s [p Hp]]; simpl; [now exists []|].
  destruct (Ascii.eqb x c).
  - exists (x :: p). simpl. now f_equal.
  - now exists [].
Qed.

Lemma trimLeftByte_head (s : gostring) x rest :
  trimLeftByte s c = x :: rest -> x <> c.
Proof.
  induction s as [|y s IH]; simpl; [discriminate|].
  destruct (Ascii.eqb_spec y c) as [->|Hne]; [exact IH|].
  intros [= <- _]. exact Hne.
Qed.

Lemma trimLeftByte_keep (x : ascii) (s : gostring) :
  x <> c -> trimLeftByte (x :: s) c = x :: s.
Proof. intros H. simpl. now destruct (Ascii.eqb_spec x c). Qed.

Lemma trimLeftByte_snoc (s : gostring) (x : ascii) :
  x <> c -> trimLeftByte (s ++ [x]) c = trimLeftByte s c ++ [x].
Proof.
  intros H. induction s as [|y s IH]; simpl.
  - now destruct (Ascii.eqb_spec x c).
  - now destruct (Ascii.eqb y c).
Qed.

Lemma trimLeftByte_length (s : gostring) :
  (length (trimLeftByte s c) <= length s)%nat.
Proof.
  induction s as [|x s IH]; simpl; [lia|].
  destruct (Ascii.eqb x c); simpl; lia.
Qed.

Lemma trimRightByte_length (s : gostring) :
  (length (trimRightByte s c) <= length s)%nat.
Proof.
  unfold trimRightByte. rewrite length_rev.
  etransitivity; [apply trimLeftByte_length|]. now rewrite length_rev.
Qed.

(** Trimming on the right keeps a head that is not the trimmed byte. *)
Lemma trimRightByte_cons (x : ascii) (s : gostring) :
  x <> c -> trimRightByte (x :: s) c = x :: trimRightByte s c.
Proof.
  intros H. unfold trimRightByte. simpl.
  rewrite trimLeftByte_snoc by exact H.
  now rewrite rev_app_distr.
Qed.

Lemma Forall_trimLeftByte (P : ascii -> Prop) (s : gostring) :
  Forall P s -> Forall P (trimLeftByte s c).
Proof.
  intros H. destruct (trimLeftByte_suffix s) as [p Hp].
  rewrite Hp in H. now apply Forall_app in H as [_ H].
Qed.

Lemma Forall_TrimByte (P : ascii -> Prop) (s : gostring) :
  Forall P s -> Forall P (TrimByte s c).
Proof.
  intros H. unfold TrimByte, trimRightByte.
  apply Forall_trimLeftByte, Forall_rev, Forall_trimLeftByte, Forall_rev, H.
Qed.

(** A trimmed string does not end in the trimmed byte. *)
Lemma trimRightByte_TrimByte (s : gostring) :
  trimRightByte (TrimByte s c) c = TrimByte s c.
Proof.
  unfold TrimByte.
  destruct (trimLeftByte_suffix (trimRightByte s c)) as [p Hp].
  set (t := trimLeftByte (trimRightByte s c) c) in *.
  unfold trimRightByte at 1.
  destruct (rev t) as [|y r] eqn:Er.
  - simpl. apply (f_equal (@rev ascii)) in Er.
    rewrite rev_involutive in Er. now rewrite Er.
  - assert (Hy : y <> c).
    { unfold trimRightByte in Hp.
      apply (f_equal (@rev ascii)) in Hp.
      rewrite rev_involutive, rev_app_distr, Er in Hp. simpl in Hp.
      eapply trimLeftByte_head. exact Hp. }
    rewrite trimLeftByte_keep by exact Hy.
    rewrite <- Er. apply rev_involutive.
Qed.

Lemma TrimByte_head (s : gostring) x rest :
  TrimByte s c = x :: rest -> x <> c.
Proof. apply trimLeftByte_head. Qed.

End TrimFacts.

Section SanitizeFacts.
Import GoStr Utils Props.

Lemma safe_underscore : safe underscore.
Proof. reflexivity. Qed.

(** The class holds ASCII bytes only. *)
Lemma safe_ascii (c : ascii) : safe c -> (byteVal c <? 0x80)%N = true.
Proof.
  unfold safe. destruct c as [b0 b1 b2 b3 b4 b5 b6 b7].
  destruct b0, b1, b2, b3, b4, b5, b6, b7; vm_compute; congruence.
Qed.

Lemma replaceUnsafe_safe (s : gostring) :
  forall skip, Forall safe (replaceUnsafe skip s).
Proof.
  induction s as [|c s IH]; intros skip; simpl; [constructor|].
  destruct skip; [|apply IH].
  destruct (byteVal c <? 128)%N.
  - constructor; [|apply IH].
    destruct (safeByte c) eqn:E; [exact E|exact safe_underscore].
  - constructor; [exact safe_underscore|apply IH].
Qed.

(** Replacement changes nothing in a string of the class. *)
Lemma ReplaceAllString_safe_id (s : gostring) :
  Forall safe s -> ReplaceAllString s = s.
Proof.
  unfold ReplaceAllString. induction 1 as [|c s Hc _ IH]; simpl; [reflexivity|].
  rewrite (safe_ascii c Hc). unfold safe in Hc. rewrite Hc. now f_equal.
Qed.

Lemma SanitizeFilename_safe (x : gostring) : Forall safe (SanitizeFilename x).
Proof.
  unfold SanitizeFilename.
  assert (Ht : Forall safe (TrimByte (ReplaceAllString x) underscore))
    by apply Forall_TrimByte, replaceUnsafe_safe.
  destruct (100 <? _)%nat; case_bool_decide;
    try (repeat constructor; fail); try exact Ht.
  now apply Forall_take.
Qed.

Lemma SanitizeFilename_length (x : gostring) :
  (length (SanitizeFilename x) <= 100)%nat.
Proof.
  unfold SanitizeFilename.
  destruct (Nat.ltb_spec 100 (length (TrimByte (ReplaceAllString x) underscore)));
    case_bool_decide; simpl; try lia.
  rewrite length_take. lia.
Qed.

Lemma SanitizeFilename_fallback (x : gostring) :
  TrimByte (ReplaceAllString x) underscore = [] ->
  SanitizeFilename x = str "file".
Proof. unfold SanitizeFilename. intros ->. reflexivity. Qed.

(** The output is never empty and never starts with an underscore. *)
Lemma SanitizeFilename_head (x : gostring) :
  exists h rest, SanitizeFilename x = h :: rest /\ h <> underscore.
Proof.
  unfold SanitizeFilename.
  destruct (TrimByte (ReplaceAllString x) underscore) as [|h t] eqn:Et.
  - simpl. exists "f"%char, (str "ile"). split; [reflexivity|discriminate].
  - apply TrimByte_head in Et as Hh.
    destruct (100 <? _)%nat; simpl; exists h; eexists; split; eauto.
Qed.

(** Without truncation the output is the trimmed replacement. *)
Lemma SanitizeFilename_short (x : gostring) :
  let t := TrimByte (ReplaceAllString x) underscore in
  (length t <= 100)%nat -> t <> [] -> SanitizeFilename x = t.
Proof.
  intros t Hl Hne. unfold SanitizeFilename. fold t.
  destruct (Nat.ltb_spec 100 (length t)); [lia|].
  now case_bool_decide.
Qed.

(** Sanitizing a string of the class that is short and does not start with
    an underscore only trims its right end. *)
Lemma SanitizeFilename_on_clean (h : ascii) (rest : gostring) :
  Forall safe (h :: rest) -> h <> underscore ->
  (length (h :: rest) <= 100)%nat ->
  SanitizeFilename (h :: rest) = trimRightByte (h :: rest) underscore.
Proof.
  intros Hs Hh Hl. unfold SanitizeFilename.
  rewrite (ReplaceAllString_safe_id _ Hs).
  unfold TrimByte. rewrite (trimRightByte_cons _ h rest Hh).
  rewrite trimLeftByte_keep by exact Hh.
  pose proof (trimRightByte_length underscore rest) as Hr.
  simpl in Hl.
  destruct (Nat.ltb_spec 100 (length (h :: trimRightByte rest underscore)));
    [simpl in *; lia|].
  reflexivity.
Qed.

(** A second pass trims the trailing underscores truncation may have left. *)
Lemma SanitizeFilename_twice (x : gostring) :
  SanitizeFilename (SanitizeFilename x)
  = trimRightByte (SanitizeFilename x) underscore.
Proof.
  destruct (SanitizeFilename_head x) as (h & rest & E & Hh).
  pose proof (SanitizeFilename_safe x) as Hs.
  pose proof (SanitizeFilename_length x) as Hl.
  rewrite E in *. now apply SanitizeFilename_on_clean.
Qed.

Lemma SanitizeFilename_idem_short (x : gostring) :
  (length (TrimByte (ReplaceAllString x) underscore) <= 100)%nat ->
  SanitizeFilename (SanitizeFilename x) = SanitizeFilename x.
Proof.
  intros Hl. rewrite SanitizeFilename_twice.
  destruct (TrimByte (ReplaceAllString x) underscore) as [|h t] eqn:Et.
  - rewrite (SanitizeFilename_fallback x Et). reflexivity.
  - rewrite (SanitizeFilename_short x); rewrite Et; try easy.
    rewrite <- Et. apply trimRightByte_TrimByte.
Qed.

End SanitizeFacts.

(* ===================================================================== *)
(** * Facts about the fetcher                                             *)
(* ===================================================================== *)

Section FetcherFacts.
Import GoStr Ytdlp Props.

Lemma Join_nonempty (dir name : gostring) : Join dir name <> [].
Proof. unfold Join. now destruct dir. Qed.

Lemma scan_snoc (dir : gostring) (files : list DirEntry) (f : DirEntry) :
  scan dir (files ++ [f]) = scanStep dir (scan dir files) f.
Proof. unfold scan. now rewrite fold_left_app. Qed.

(** The loop has no [break]: each matching entry overwrites the previous
    choice, so the last one of each kind is kept. *)
Lemma scan_last (dir : gostring) (files : list DirEntry) :
  scan dir files
  = (pathOf dir (lastOf isMedia files), pathOf dir (lastOf isJSON files)).
Proof.
  unfold lastOf. induction files as [|f files IH] using rev_ind; [reflexivity|].
  rewrite scan_snoc, IH, rev_app_distr. simpl.
  unfold scanStep, isMedia, isJSON. simpl.
  case_bool_decide; simpl; [reflexivity|].
  now destruct (IsDir f).
Qed.

Lemma pathOf_empty (dir : gostring) (f : option DirEntry) :
  pathOf dir f = [] <-> f = None.
Proof.
  destruct f; simpl; split; try easy. intros H. now apply Join_nonempty in H.
Qed.

(** The call, once the tool has returned. *)
Lemma DownloadVideo_after_run e url options w ok w3 :
  toolRun e url options w = Some (ok, w3) ->
  DownloadVideo e url options w =
    let dir := uniqueDirOf e in
    if negb ok then
      (failure ErrDownload,
       removeQuietly e dir (log LError "Failed to download video" w3))
    else
      match ReadDir e dir w3 with
      | None => (failure ErrReadDir, removeQuietly e dir w3)
      | Some files =>
          let '(videoFile, infoFile) := scan dir files in
          if bool_decide (videoFile = []) then
            (failure ErrNotFound, removeQuietly e dir w3)
          else
            let '(i, w4) := loadInfo e infoFile w3 in
            ({| filePath := videoFile; info := i; err := None |},
             log LInfo "Video downloaded successfully" w4)
      end.
Proof.
  unfold toolRun, DownloadVideo. cbn [mbind option_bind].
  destruct (MkdirAll e _ _) as [w1|]; simpl; [|discriminate].
  intros [= H]. rewrite H. reflexivity.
Qed.

Lemma loadInfo_unusable e infoFile w :
  sidecarUnusable e infoFile w -> fst (loadInfo e infoFile w) = None.
Proof.
  unfold loadInfo. intros [->|[H|(data & H & Hp)]]; [reflexivity|..];
    case_bool_decide; try reflexivity; rewrite H; [reflexivity|].
  now rewrite Hp.
Qed.

Lemma loadInfo_fs e infoFile w : fs (snd (loadInfo e infoFile w)) = fs w.
Proof.
  unfold loadInfo. case_bool_decide; [|reflexivity].
  destruct (ReadFile infoFile w); [|reflexivity].
  now destruct (unmarshal e _).
Qed.

End FetcherFacts.

(* ===================================================================== *)
(** * Facts about the generated storage key                               *)
(* ===================================================================== *)

Section KeyFacts.
Import GoStr Utils Props.

Lemma str_inj (a b : string) : str a = str b -> a = b.
Proof.
  intros H. rewrite <- (string_of_list_ascii_of_string a),
    <- (string_of_list_ascii_of_string b). now rewrite H.
Qed.

Lemma pretty_N_char_dec (x : N) : decChar (pretty_N_char x).
Proof. left. unfold pretty_N_char. repeat case_match; reflexivity. Qed.

Lemma pretty_N_go_dec (x : N) :
  forall s, Forall decChar (str s) -> Forall decChar (str (pretty_N_go x s)).
Proof.
  induction (N.lt_wf_0 x) as [x _ IH]. intros s Hs.
  assert (x = 0 \/ 0 < x)%N as [->|Hx] by lia.
  - now rewrite pretty_N_go_0.
  - rewrite pretty_N_go_step by exact Hx. apply IH.
    + now apply N.div_lt.
    + simpl. constructor; [apply pretty_N_char_dec|exact Hs].
Qed.

Lemma pretty_N_dec (x : N) : Forall decChar (str (pretty x)).
Proof.
  unfold pretty, pretty_N. case_decide.
  - repeat constructor.
  - apply pretty_N_go_dec. constructor.
Qed.

(** A formatted integer consists of digits and possibly a sign. *)
Lemma fmtInt_dec (z : Z) : Forall decChar (fmtInt z).
Proof.
  unfold fmtInt, pretty, pretty_Z. destruct z as [|p|p].
  - repeat constructor.
  - apply (pretty_N_dec (Npos p)).
  - simpl. constructor; [now right|apply (pretty_N_dec (Npos p))].
Qed.

Lemma fmtInt_inj (a b : Z) : fmtInt a = fmtInt b -> a = b.
Proof. intros H. apply str_inj in H. now apply (inj pretty) in H. Qed.

Lemma decChar_safe (c : ascii) : decChar c -> safe c.
Proof.
  unfold decChar, safe, safeByte. intros [H| ->]; [|reflexivity].
  rewrite H. now rewrite !orb_true_r.
Qed.

Lemma decChar_not_underscore (c : ascii) : decChar c -> c <> underscore.
Proof. intros [H| ->] E; [rewrite E in H|]; discriminate. Qed.

Lemma hexChar_safe (c : ascii) : hexChar c -> safe c.
Proof.
  unfold hexChar, safe, safeByte, inRange.
  intros [H|H]; apply andb_prop in H as [H1 H2];
    apply N.leb_le in H1, H2.
  - rewrite !orb_true_iff. left. left. left. right.
    apply andb_true_intro. split; apply N.leb_le; lia.
  - rewrite !orb_true_iff. do 5 left.
    apply andb_true_intro. split; apply N.leb_le; lia.
Qed.

Lemma hexChar_not_underscore (c : ascii) : hexChar c -> c <> underscore.
Proof. intros [H|H] E; rewrite E in H; discriminate. Qed.

Lemma hexByte_hex (c : ascii) : Forall hexChar (hexByte c).
Proof.
  destruct c as [b0 b1 b2 b3 b4 b5 b6 b7].
  destruct b0, b1, b2, b3, b4, b5, b6, b7;
    (constructor; [|constructor; [|constructor]]);
    first [left; vm_compute; reflexivity | right; vm_compute; reflexivity].
Qed.

Lemma EncodeToString_hex (bs : gostring) : Forall hexChar (EncodeToString bs).
Proof.
  unfold EncodeToString. induction bs as [|c bs IH]; [constructor|].
  cbn [map concat]. apply Forall_app. split; [apply hexByte_hex|exact IH].
Qed.

Lemma hexByte_decode (c : ascii) (rest : gostring) :
  DecodeString (hexByte c ++ rest) = c :: DecodeString rest.
Proof.
  destruct c as [b0 b1 b2 b3 b4 b5 b6 b7].
  destruct b0, b1, b2, b3, b4, b5, b6, b7; reflexivity.
Qed.

Lemma DecodeString_Encode (bs : gostring) : DecodeString (EncodeToString bs) = bs.
Proof.
  unfold EncodeToString. induction bs as [|c bs IH]; [reflexivity|].
  cbn [map concat]. now rewrite hexByte_decode, IH.
Qed.

Lemma EncodeToString_inj (a b : gostring) :
  EncodeToString a = EncodeToString b -> a = b.
Proof.
  intros H. rewrite <- (DecodeString_Encode a), <- (DecodeString_Encode b).
  now rewrite H.
Qed.

(** Two texts cut at the first occurrence of a separator agree part by
    part. *)
Lemma cut_unique (c : ascii) (a b x y : gostring) :
  Forall (fun d => d <> c) a -> Forall (fun d => d <> c) b ->
  a ++ c :: x = b ++ c :: y -> a = b /\ x = y.
Proof.
  intros Ha. revert b. induction Ha as [|d a Hd _ IH]; intros b Hb E.
  - destruct Hb as [|e b He _]; simpl in E.
    + now injection E.
    + injection E as <- _. contradiction.
  - destruct Hb as [|e b He Hb]; simpl in E.
    + injection E as -> _. contradiction.
    + injection E as <- E. destruct (IH b Hb E) as [-> ->]. auto.
Qed.

Lemma GenerateUniqueKey_inj (name : gostring) (ts ts' : Z) (rnd rnd' : gostring) :
  GenerateUniqueKey ts rnd name = GenerateUniqueKey ts' rnd' name ->
  ts = ts' /\ rnd = rnd'.
Proof.
  unfold GenerateUniqueKey. intros E.
  apply cut_unique in E as [Ets E];
    try (eapply Forall_impl; [apply fmtInt_dec|apply decChar_not_underscore]).
  apply cut_unique in E as [Ernd _];
    try (eapply Forall_impl; [apply EncodeToString_hex|apply hexChar_not_underscore]).
  split; [now apply fmtInt_inj|now apply EncodeToString_inj].
Qed.

Lemma Ext_safe (s : gostring) : Forall safe s -> Forall safe (Ext s).
Proof.
  intros H. destruct (Ext_suffix s) as [b Hb]. rewrite Hb in H.
  now apply Forall_app in H as [_ H].
Qed.

Lemma GenerateUniqueKey_safe (name : gostring) (ts : Z) (rnd : gostring) :
  Forall safe name -> Forall safe (GenerateUniqueKey ts rnd name).
Proof.
  intros Hn. unfold GenerateUniqueKey.
  apply Forall_app. split.
  { eapply Forall_impl; [apply fmtInt_dec|apply decChar_safe]. }
  constructor; [reflexivity|]. apply Forall_app. split.
  { eapply Forall_impl; [apply EncodeToString_hex|apply hexChar_safe]. }
  constructor; [reflexivity|]. apply Forall_app. split.
  - apply SanitizeFilename_safe.
  - now apply Ext_safe.
Qed.

End KeyFacts.

(* ===================================================================== *)
(** * Facts about the authentication middleware                           *)
(* ===================================================================== *)

Section AuthFacts.
Import GoStr Auth Props.

(** The digest function on the test vectors of FIPS 180-4: the empty
    message, a one-block message and a two-block message. *)
Example hashKey_empty :
  hashKey [] = str "e3b0c44298fc1c149afbf4c8996fb92427ae41e4649b934ca495991b7852b855".
Proof. vm_compute. reflexivity. Qed.

Example hashKey_abc :
  hashKey (str "abc")
  = str "ba7816bf8f01cfea414140de5dae2223b00361a396177a9cb410ff61f20015ad".
Proof. vm_compute. reflexivity. Qed.

Example hashKey_two_blocks :
  hashKey (str "abcdbcdecdefdefgefghfghighijhijkijkljklmklmnlmnomnopnopq")
  = str "248d6a61d20638b8e5c026930c3e6039a33ce45964ff2167f6ecedd419db06c1".
Proof. vm_compute. reflexivity. Qed.

Lemma cutAtSpace_Some (h a b : gostring) :
  cutAtSpace h = Some (a, b) <-> h = a ++ space :: b /\ ~ In space a.
Proof.
  revert a. induction h as [|c h IH]; intros a; simpl.
  - split; [discriminate|]. intros [H _]. now destruct a.
  - destruct (Ascii.eqb_spec c space) as [->|Hc].
    + split.
      * intros [= <- <-]. simpl. auto.
      * intros [H Hn]. destruct a as [|x a]; simpl in H.
        -- now injection H as <-.
        -- injection H as <- _. exfalso. apply Hn. now left.
    + destruct (cutAtSpace h) as [[a' b']|] eqn:E.
      * split.
        -- intros [= <- <-]. destruct (proj1 (IH a') eq_refl) as [-> Hn].
           split; [reflexivity|]. intros [H|H]; [now apply Hc|now apply Hn].
        -- intros [H Hn]. destruct a as [|x a]; simpl in H.
           ++ injection H as -> _. now contradiction Hc.
           ++ injection H as <- H.
              assert (Hs : Some (a', b') = Some (a, b)).
              { apply IH. split; [exact H|]. intros Hi. apply Hn. now right. }
              now injection Hs as -> ->.
      * split; [discriminate|].
        intros [H Hn]. destruct a as [|x a]; simpl in H.
        -- injection H as -> _. now contradiction Hc.
        -- injection H as <- H.
           assert (Hs : None = Some (a, b)).
           { apply IH. split; [exact H|]. intros Hi. apply Hn. now right. }
           discriminate.
Qed.

(** The token of a bearer header is the text after the first space. *)
Lemma bearerHeader_cut (h token : gostring) :
  bearerHeader h token <->
  exists scheme, cutAtSpace h = Some (scheme, token)
                 /\ ToLower scheme = str "bearer".
Proof.
  unfold bearerHeader. split; intros (scheme & H & Hr).
  - exists scheme. split; [|tauto]. apply cutAtSpace_Some. tauto.
  - exists scheme. apply cutAtSpace_Some in H. tauto.
Qed.

(** The middleware's verdict when authentication is enabled. *)
Lemma Authenticate_enabled (cfg : AuthConfig) (r : Request) :
  Enabled cfg = true ->
  fst (Authenticate cfg r) =
    if bool_decide (GetHeader r = []) then
      unauthorized "Authorization header is required"
    else
      match cutAtSpace (GetHeader r) with
      | Some (scheme, token) =>
          if bool_decide (ToLower scheme = str "bearer") then
            if bool_decide (hashKey token = APIKey cfg) then Next
            else unauthorized "Invalid API key"
          else unauthorized "Authorization header must be in format: Bearer <token>"
      | None => unauthorized "Authorization header must be in format: Bearer <token>"
      end.
Proof.
  intros He. unfold Authenticate, SplitN2, validateAPIKey. rewrite He. simpl.
  case_bool_decide; [reflexivity|].
  destruct (cutAtSpace (GetHeader r)) as [[scheme token]|]; [|reflexivity].
  repeat (case_bool_decide; simpl); try reflexivity; contradiction.
Qed.

Lemma rejects_unauthorized cfg r msg :
  fst (Authenticate cfg r) = unauthorized msg -> rejects cfg r.
Proof. intros H. exists msg. exact H. Qed.

Lemma serve_Abort {Resp} cfg (handler : Request -> Resp) r :
  rejects cfg r -> snd (serve cfg handler r) = None.
Proof. intros [msg H]. unfold serve. now rewrite H. Qed.

Lemma serve_Next {Resp} cfg (handler : Request -> Resp) r :
  fst (Authenticate cfg r) = Next -> snd (serve cfg handler r) = Some (handler r).
Proof. intros H. unfold serve. now rewrite H. Qed.

Lemma badCredentials_rejects cfg r :
  Enabled cfg = true -> badCredentials cfg r -> rejects cfg r.
Proof.
  intros He Hbad. pose proof (Authenticate_enabled cfg r He) as HA.
  case_bool_decide as Hh; [eapply rejects_unauthorized, HA|].
  destruct Hbad as [Hnone|[Hmal|(token & Hb & Hhash)]].
  - exfalso. apply Hh. unfold GetHeader. now rewrite Hnone.
  - destruct (cutAtSpace (GetHeader r)) as [[scheme token]|] eqn:E;
      [|eapply rejects_unauthorized, HA].
    case_bool_decide as Hs; [|eapply rejects_unauthorized, HA].
    exfalso. apply (Hmal token). apply bearerHeader_cut. eauto.
  - apply bearerHeader_cut in Hb as (scheme & E & Hs).
    rewrite E in HA. rewrite bool_decide_eq_true_2 in HA by exact Hs.
    rewrite bool_decide_eq_false_2 in HA by exact Hhash.
    eapply rejects_unauthorized, HA.
Qed.

Lemma goodCredentials_pass cfg r token :
  Enabled cfg = true ->
  bearerHeader (GetHeader r) token -> hashKey token = APIKey cfg ->
  fst (Authenticate cfg r) = Next.
Proof.
  intros He Hb Hhash. rewrite (Authenticate_enabled cfg r He).
  apply bearerHeader_cut in Hb as (scheme & E & Hs).
  assert (Hne : GetHeader r <> []) by (intros H0; rewrite H0 in E; discriminate).
  rewrite bool_decide_eq_false_2 by exact Hne.
  rewrite E, bool_decide_eq_true_2 by exact Hs.
  now rewrite bool_decide_eq_true_2 by exact Hhash.
Qed.

End AuthFacts.

(* ===================================================================== *)
(** * Further facts about the fetcher                                     *)
(* ===================================================================== *)

Section FetcherMoreFacts.
Import GoStr Ytdlp Props.





Lemma toolRun_None e url options w :
  toolRun e url options w = None ->
  DownloadVideo e url options w
  = (failure ErrCreateDir, log LInfo "Starting video download" w).
Proof.
  unfold toolRun, DownloadVideo. cbn [mbind option_bind].
  destruct (MkdirAll e _ _); [discriminate|reflexivity].
Qed.

Lemma afterSlash_plain (name r : gostring) :
  ~ In slash name -> afterSlash (rev name ++ slash :: r) = r.
Proof.
  intros H. rewrite in_rev in H. induction (rev name) as [|c l IH]; simpl.
  - reflexivity.
  - destruct (Ascii.eqb_spec c slash) as [->|_].
    + exfalso. apply H. now left.
    + apply IH. intros Hi. apply H. now right.
Qed.

Lemma untilSlash_plain (name r : gostring) :
  ~ In slash name -> untilSlash (rev name ++ slash :: r) = rev name.
Proof.
  intros H. rewrite in_rev in H. induction (rev name) as [|c l IH]; simpl.
  - reflexivity.
  - destruct (Ascii.eqb_spec c slash) as [->|_].
    + exfalso. apply H. now left.
    + f_equal. apply IH. intros Hi. apply H. now right.
Qed.

(** The directory and the name of a joined path. *)
Lemma parentOf_Join (dir name : gostring) :
  ~ In slash name -> parentOf (Join dir name) = dir.
Proof.
  intros H. unfold parentOf, Join. rewrite rev_app_distr. simpl.
  rewrite <- app_assoc. simpl. rewrite afterSlash_plain by exact H.
  apply rev_involutive.
Qed.

Lemma nameOf_Join (dir name : gostring) :
  ~ In slash name -> nameOf (Join dir name) = name.
Proof.
  intros H. unfold nameOf, Join. rewrite rev_app_distr. simpl.
  rewrite <- app_assoc. simpl. rewrite untilSlash_plain by exact H.
  apply rev_involutive.
Qed.

Lemma lastOf_In (p : DirEntry -> bool) (files : list DirEntry) f :
  lastOf p files = Some f -> In f files /\ p f = true.
Proof.
  unfold lastOf. intros H. apply find_some in H as [Hi Hp].
  split; [now apply in_rev|exact Hp].
Qed.

Lemma fold_args_app (kvs : list (gostring * gostring)) (args : list gostring) :
  fold_left (fun a kv => a ++ [str "--" ++ fst kv; snd kv]) kvs args
  = args ++ flat_map (fun kv => [str "--" ++ fst kv; snd kv]) kvs.
Proof.
  revert args. induction kvs as [|kv kvs IH]; intros args; simpl.
  - now rewrite app_nil_r.
  - rewrite IH, <- app_assoc. reflexivity.
Qed.

Lemma if_app {A} (b : bool) (a x : list A) :
  (if b then a ++ x else a) = a ++ (if b then x else []).
Proof. destruct b; [reflexivity|now rewrite app_nil_r]. Qed.

(** The optional part of the argument list. *)
Lemma buildArgs_shape (dir url : gostring) (options : option Options) :
  exists middle, buildArgs dir url options = fixedArgs dir ++ middle ++ [url].
Proof.
  unfold buildArgs. fold (fixedArgs dir). destruct options as [o|].
  - rewrite fold_args_app, !if_app.
    match goal with
    | |- exists m, ((((((?f ++ ?a) ++ ?b) ++ ?c) ++ ?d) ++ ?g) ++ ?h) ++ _ = _ =>
        exists (a ++ b ++ c ++ d ++ g ++ h)
    end.
    now rewrite <- !app_assoc.
  - exists []. reflexivity.
Qed.

(** A successful call, once the tool has returned and the directory has
    been listed. *)
Lemma download_success_shape e url options w w3 files :
  toolRun e url options w = Some (true, w3) ->
  ReadDir e (uniqueDirOf e) w3 = Some files ->
  err (fst (DownloadVideo e url options w)) = None ->
  exists f,
    In f files /\ isMedia f = true
    /\ filePath (fst (DownloadVideo e url options w)) = Join (uniqueDirOf e) (Name f)
    /\ fs (snd (DownloadVideo e url options w)) = fs w3.
Proof.
  intros Hrun Hread Herr.
  pose proof (DownloadVideo_after_run _ _ _ _ _ _ Hrun) as HD.
  simpl in HD. rewrite Hread, (scan_last _ files) in HD.
  destruct (lastOf isMedia files) as [f|] eqn:Hf; simpl in HD.
  - rewrite bool_decide_eq_false_2 in HD by apply Join_nonempty.
    pose proof (loadInfo_fs e (pathOf (uniqueDirOf e) (lastOf isJSON files)) w3) as Hl.
    destruct (loadInfo e _ w3) as [i w4]. rewrite HD. simpl.
    apply lastOf_In in Hf as [Hin Hm]. exists f. auto.
  - rewrite HD in Herr. discriminate.
Qed.

Lemma DownloadVideo_cases e url options w :
  (toolRun e url options w = None
   /\ DownloadVideo e url options w
      = (failure ErrCreateDir, log LInfo "Starting video download" w))
  \/ exists ok w3, toolRun e url options w = Some (ok, w3).
Proof.
  destruct (toolRun e url options w) as [[ok w3]|] eqn:E.
  - right. eauto.
  - left. split; [reflexivity|now apply toolRun_None].
Qed.

Lemma DownloadVideo_success_path e url options w :
  err (fst (DownloadVideo e url options w)) = None ->
  exists name,
    filePath (fst (DownloadVideo e url options w)) = Join (uniqueDirOf e) name.
Proof.
  intros Herr.
  destruct (DownloadVideo_cases e url options w)
    as [[_ HD]|(ok & w3 & Hrun)].
  { rewrite HD in Herr. discriminate. }
  pose proof (DownloadVideo_after_run _ _ _ _ _ _ Hrun) as HD. simpl in HD.
  destruct ok; simpl in HD; [|rewrite HD in Herr; discriminate].
  destruct (ReadDir e _ w3) as [files|]; [|rewrite HD in Herr; discriminate].
  rewrite (scan_last _ files) in HD.
  destruct (lastOf isMedia files) as [f|]; simpl in HD;
    [|rewrite HD in Herr; discriminate].
  rewrite bool_decide_eq_false_2 in HD by apply Join_nonempty.
  destruct (loadInfo e _ w3) as [i w4]. rewrite HD. simpl. eauto.
Qed.

Lemma decChar_not_slash (c : ascii) : decChar c -> c <> slash.
Proof. intros [H| ->] E; [rewrite E in H|]; discriminate. Qed.

(** ** Reading the downloaded file back *)


Lemma ReadFile_fs (path : gostring) (w1 w2 : World) :
  fs w1 = fs w2 -> ReadFile path w1 = ReadFile path w2.
Proof. unfold ReadFile. now intros ->. Qed.

Lemma find_by_name (files : list DirEntry) (f : DirEntry) :
  NoDup (map Name files) -> In f files ->
  find (fun g => bool_decide (Name g = Name f)) files = Some f.
Proof.
  induction files as [|g files IH]; simpl; [easy|].
  intros Hnd [->|Hin].
  - now rewrite bool_decide_eq_true_2.
  - apply NoDup_cons in Hnd as [Hg Hnd].
    rewrite bool_decide_eq_false_2; [now apply IH|].
    intros E. apply Hg. rewrite E. apply list_elem_of_In. now apply in_map.
Qed.

(** Reading the path of a listed entry with a plain, unambiguous name
    gives that entry's bytes. *)
Lemma ReadFile_listed (dir : gostring) (w : World) (files : list DirEntry)
    (f : DirEntry) :
  fs w !! dir = Some files ->
  NoDup (map Name files) -> In f files -> plainName f ->
  ReadFile (Join dir (Name f)) w = Data f.
Proof.
  intros Hd Hnd Hin Hp. unfold ReadFile.
  rewrite parentOf_Join, nameOf_Join by exact Hp.
  rewrite Hd. cbn [mbind option_bind].
  now rewrite (find_by_name files f Hnd Hin).
Qed.



(** ** Extensions *)

Lemma extLoop_clean (r1 r2 acc : gostring) :
  Forall (fun c => c <> slash /\ c <> dot) r1 ->
  extLoop (r1 ++ dot :: r2) acc = dot :: rev r1 ++ acc.
Proof.
  intros H. revert acc. induction H as [|c r1 [Hs Hd] _ IH]; intros acc; simpl.
  - reflexivity.
  - destruct (Ascii.eqb_spec c slash) as [E|_]; [contradiction|].
    destruct (Ascii.eqb_spec c dot) as [E|_]; [contradiction|].
    rewrite IH, <- app_assoc. reflexivity.
Qed.

(** A non-empty extension is a dot followed by bytes that are neither a
    dot nor a slash. *)
Lemma Ext_shape (path : gostring) :
  Ext path = []
  \/ exists tail, Ext path = dot :: tail
                  /\ Forall (fun c => c <> slash /\ c <> dot) tail.
Proof.
  unfold Ext. destruct (extLoop_shape (rev path) []) as [E|(r1 & r2 & _ & E & F)].
  - now left.
  - right. exists (rev r1). rewrite E, app_nil_r. split; [reflexivity|].
    now apply Forall_rev.
Qed.

Lemma Ext_app_tail (b tail : gostring) :
  Forall (fun c => c <> slash /\ c <> dot) tail ->
  Ext (b ++ dot :: tail) = dot :: tail.
Proof.
  intros H. unfold Ext. rewrite rev_app_distr. simpl. rewrite <- app_assoc. simpl.
  rewrite extLoop_clean by now apply Forall_rev.
  now rewrite rev_involutive, app_nil_r.
Qed.

(** Appending a path's extension to any text gives a path with that
    extension. *)
Lemma Ext_app_Ext (b path : gostring) :
  Ext path <> [] -> Ext (b ++ Ext path) = Ext path.
Proof.
  intros H. destruct (Ext_shape path) as [E|(tail & E & F)]; [contradiction|].
  rewrite E. now apply Ext_app_tail.
Qed.

Lemma stem_safe (k : gostring) : Forall safe k -> Forall safe (S3.stem k).
Proof.
  intros H. rewrite (stem_ext k) in H. now apply Forall_app in H as [H _].
Qed.

Lemma getMetadataKey_safe (k : gostring) :
  Forall safe k -> Forall safe (S3.getMetadataKey k).
Proof.
  intros H. rewrite getMetadataKey_stem. apply Forall_app. split.
  - now apply stem_safe.
  - repeat constructor.
Qed.

End FetcherMoreFacts.

(* ===================================================================== *)
(** * Properties of the uploader                                          *)
(* ===================================================================== *)

Section UploaderProperties.
Import GoStr S3 Props.

(** C1, as the code has it. A run of [UploadVideoWithMetadata] ends in one
    of four ways ([uploadOutcome]): a result, with both objects put into the
    bucket; the video upload's error, with the bucket untouched; the
    metadata upload's error after the video object was deleted again; or the
    metadata upload's error with the deletion itself failed and logged, the
    video object still in the bucket. So a result is returned only when both
    puts succeeded, a metadata failure is always surfaced without a result,
    and the video object is gone afterwards whenever its deletion went
    through. *)
Theorem upload_result_or_compensation (s : Service) (filePath key : gostring)
    (info : option Ytdlp.VideoInfo) (w : World) :
  let run := UploadVideoWithMetadata s filePath key info w in
  let added := drop (length (logs w)) (logs (snd run)) in
  uploadOutcome key w (fst run) (snd run)
  /\ match fst run with
     | inr res =>
         is_Some (objects (snd run) !! key)
         /\ is_Some (objects (snd run) !! getMetadataKey key)
     | inl e =>
         objects (snd run) = objects w
         \/ objects (snd run) !! key = None
         \/ (In lineCleanupFailed added /\ is_Some (objects (snd run) !! key))
     end.
Proof.
  intros run added. pose proof (upload_outcome s filePath key info w) as H.
  fold run in H. split; [exact H|].
  subst added. unfold uploadOutcome in H. destruct (fst run) as [e|res].
  - destruct H as [(c & _ & Ho & _)|(c & _ & [[Ho _]|(vobj & Ho & Hl)])].
    + now left.
    + right. left. rewrite Ho. apply lookup_delete_eq.
    + right. right. rewrite Hl, Ho, drop_app_length. split.
      * simpl. auto.
      * rewrite lookup_insert_eq. eauto.
  - destruct H as (vobj & mobj & Ho & _). rewrite Ho. split.
    + destruct (decide (getMetadataKey key = key)) as [E|E].
      * rewrite E, lookup_insert_eq. eauto.
      * rewrite lookup_insert_ne, lookup_insert_eq by exact E. eauto.
    + rewrite lookup_insert_eq. eauto.
Qed.

(** C1, as stated, fails: the metadata put fails and so does the
    compensating delete; the call returns the metadata error and the bucket,
    empty before, holds the video object and no metadata object. *)
Lemma upload_leaves_orphan_when_delete_fails :
  fst Demo.uploadBroken
  = inl (Wrap "failed to upload metadata"
           (Wrap "failed to upload metadata to S3-compatible storage" ErrClient))
  /\ objects (Demo.world Demo.brokenLink) = ∅
  /\ orphaned Demo.videoKey (snd Demo.uploadBroken)
  /\ In lineCleanupFailed (logs (snd Demo.uploadBroken)).
Proof.
  split; [vm_compute; reflexivity|]. split; [reflexivity|]. split.
  - split; [|vm_compute; reflexivity].
    eexists. vm_compute. reflexivity.
  - vm_compute. auto 6.
Qed.

(** C6. After a successful upload the combined size is the [int64] sum of
    the two reported sizes; both are lengths, and the sum is exact whenever
    it fits in 63 bits. *)
Theorem total_size_is_sum (s : Service) (filePath key : gostring)
    (info : option Ytdlp.VideoInfo) (w w' : World) (res : UploadResult) :
  UploadVideoWithMetadata s filePath key info w = (inr res, w') ->
  TotalSize res = add64 (Size (VideoUpload res)) (Size (MetadataUpload res))
  /\ 0 <= Size (VideoUpload res)
  /\ 0 <= Size (MetadataUpload res)
  /\ (Size (VideoUpload res) + Size (MetadataUpload res) < 2 ^ 63 ->
      TotalSize res = Size (VideoUpload res) + Size (MetadataUpload res)).
Proof.
  intros E. pose proof (upload_total _ _ _ _ _ _ _ E) as Ht.
  pose proof (upload_outcome s filePath key info w) as H.
  rewrite E in H. simpl in H. destruct H as (vobj & mobj & _ & _ & _ & Hv & Hm & _).
  repeat split; [exact Ht|lia|lia|].
  intros Hfit. rewrite Ht. unfold add64, wrap64.
  rewrite Z.mod_small by lia. lia.
Qed.

Lemma total_size_is_sum_witness :
  Demo.uploadOK = (inr Demo.uploadedResult, snd Demo.uploadOK)
  /\ TotalSize Demo.uploadedResult = 9 + 31.
Proof.
  assert (E : Demo.uploadOK = (inr Demo.uploadedResult, snd Demo.uploadOK))
    by (vm_compute; reflexivity).
  split; [exact E|].
  destruct (total_size_is_sum _ _ _ _ _ _ _ E) as (_ & _ & _ & H).
  rewrite H; vm_compute; reflexivity.
Defined.

(** C5, as the code has it. The metadata key is the video key's stem
    (directory prefix and base name) followed by ".json": it has the same
    directory prefix, the same stem and the extension ".json"; it is the
    video key itself exactly when that key's extension is ".json" already. *)
Theorem metadata_key_derivation (k : gostring) :
  getMetadataKey k = stem k ++ str ".json"
  /\ dirPrefix (getMetadataKey k) = dirPrefix k
  /\ stem (getMetadataKey k) = stem k
  /\ Ext (getMetadataKey k) = str ".json"
  /\ (getMetadataKey k = k <-> Ext k = str ".json").
Proof.
  repeat split.
  - apply getMetadataKey_same_dir.
  - apply getMetadataKey_same_stem.
  - apply getMetadataKey_ext.
  - apply getMetadataKey_fixed.
  - apply getMetadataKey_fixed.
Qed.

(** C5, as stated, fails: for a video key with the extension ".json" the
    two keys are one key, with one extension. *)
Lemma metadata_key_of_json_key :
  getMetadataKey (str "videos/clip.json") = str "videos/clip.json"
  /\ Ext (getMetadataKey (str "videos/clip.json")) = Ext (str "videos/clip.json").
Proof. split; reflexivity. Qed.

(** C10. The derivation is idempotent; a key that ends in ".json" is its
    own metadata key; and an upload under such a key puts the metadata
    under the video's key, so that the bucket ends with the metadata
    document there. *)
Theorem metadata_key_idempotent :
  (forall k, getMetadataKey (getMetadataKey k) = getMetadataKey k)
  /\ (forall k, HasSuffix k (str ".json") = true -> getMetadataKey k = k)
  /\ (forall s filePath key info w res w',
         HasSuffix key (str ".json") = true ->
         UploadVideoWithMetadata s filePath key info w = (inr res, w') ->
         Key (MetadataUpload res) = Key (VideoUpload res)
         /\ exists mobj,
             objects w' = <[key := mobj]> (objects w)
             /\ Size (MetadataUpload res) = Z.of_nat (length (oBody mobj))).
Proof.
  split; [exact getMetadataKey_idem|]. split; [exact getMetadataKey_json|].
  intros s filePath key info w res w' Hk E.
  pose proof (upload_outcome s filePath key info w) as H.
  rewrite E in H. simpl in H.
  destruct H as (vobj & mobj & Ho & Kv & Km & _ & Hm & _).
  rewrite (getMetadataKey_json key Hk) in *.
  split; [congruence|]. exists mobj.
  rewrite insert_insert_eq in Ho. auto.
Qed.

Lemma metadata_key_idempotent_witness :
  getMetadataKey (str "1700000000_deadbeef_clip.json")
  = str "1700000000_deadbeef_clip.json"
  /\ getMetadataKey (getMetadataKey Demo.videoKey) = getMetadataKey Demo.videoKey
  /\ exists res w',
       Demo.uploadJSON = (inr res, w')
       /\ Key (MetadataUpload res) = Key (VideoUpload res)
       /\ exists mobj,
           objects w' = <[Demo.jsonKey := mobj]> (objects (Demo.world []))
           /\ Size (MetadataUpload res) = Z.of_nat (length (oBody mobj)).
Proof.
  destruct metadata_key_idempotent as (Hi & Hj & Hu). split; [|split].
  - apply Hj. vm_compute. reflexivity.
  - apply Hi.
  - assert (E : exists res w', Demo.uploadJSON = (inr res, w'))
      by (vm_compute; do 2 eexists; reflexivity).
    destruct E as (res & w' & E). exists res, w'. split; [exact E|].
    apply (Hu Demo.service Demo.localPath Demo.jsonKey None (Demo.world []) res w');
      [vm_compute; reflexivity|exact E].
Defined.

End UploaderProperties.

(* ===================================================================== *)
(** * Properties of sanitization and of the generated key                 *)
(* ===================================================================== *)

Section SanitizeProperties.
Import GoStr Utils Props.

(** C3, as the code has it. For every input the output consists of bytes
    of the class, is at most 100 bytes long and is "file" when the input
    sanitizes to empty. A second pass removes the underscores the output
    ends with; it changes nothing when the first pass did not truncate. *)
Theorem sanitize_properties (x : gostring) :
  Forall safe (SanitizeFilename x)
  /\ (length (SanitizeFilename x) <= 100)%nat
  /\ (TrimByte (ReplaceAllString x) underscore = [] ->
      SanitizeFilename x = str "file")
  /\ SanitizeFilename (SanitizeFilename x)
     = trimRightByte (SanitizeFilename x) underscore
  /\ ((length (TrimByte (ReplaceAllString x) underscore) <= 100)%nat ->
      SanitizeFilename (SanitizeFilename x) = SanitizeFilename x).
Proof.
  split; [apply SanitizeFilename_safe|].
  split; [apply SanitizeFilename_length|].
  split; [apply SanitizeFilename_fallback|].
  split; [apply SanitizeFilename_twice|apply SanitizeFilename_idem_short].
Qed.

Lemma sanitize_properties_witness :
  SanitizeFilename (str "___") = str "file"
  /\ SanitizeFilename (SanitizeFilename (str "my video (1).mp4"))
     = SanitizeFilename (str "my video (1).mp4").
Proof.
  split.
  - destruct (sanitize_properties (str "___")) as (_ & _ & H & _).
    apply H. reflexivity.
  - destruct (sanitize_properties (str "my video (1).mp4")) as (_ & _ & _ & _ & H).
    apply H. vm_compute. lia.
Defined.

(** C3, as stated, fails: a name of 99 letters, an underscore and one more
    letter is cut after the underscore; the second pass trims it. *)
Lemma sanitize_twice_differs :
  SanitizeFilename Demo.longName = repeat "a"%char 99 ++ str "_"
  /\ SanitizeFilename (SanitizeFilename Demo.longName) = repeat "a"%char 99.
Proof. split; vm_compute; reflexivity. Qed.

(** C8, as the code has it. The key is the decimal timestamp, an
    underscore, the random bytes in hexadecimal, an underscore, and then the
    requested key (given the file's extension when it has none) sanitized,
    its base name sanitized once more. All its bytes are of the class, and
    for a given request two keys are equal only when the timestamp and the
    random bytes are. *)
Theorem generated_key_shape (requestedKey filePath : gostring) (ts : Z)
    (rnd : gostring) :
  let wanted :=
    if bool_decide (Ext requestedKey = []) then requestedKey ++ Ext filePath
    else requestedKey in
  let name := SanitizeFilename wanted in
  keyAt requestedKey filePath ts rnd
  = fmtInt ts ++ str "_" ++ EncodeToString rnd ++ str "_"
    ++ SanitizeFilename (TrimSuffix name (Ext name)) ++ Ext name
  /\ Forall safe (keyAt requestedKey filePath ts rnd)
  /\ (forall ts' rnd',
         keyAt requestedKey filePath ts' rnd' = keyAt requestedKey filePath ts rnd ->
         ts' = ts /\ rnd' = rnd).
Proof.
  intros wanted name. unfold keyAt, Handlers.generateUniqueS3Key.
  fold wanted. fold name. split; [|split].
  - reflexivity.
  - apply GenerateUniqueKey_safe, SanitizeFilename_safe.
  - intros ts' rnd' E. now apply GenerateUniqueKey_inj in E.
Qed.

Lemma generated_key_shape_witness :
  keyAt (str "my clip") Demo.localPath 1700000000 (str "ABCD")
  = str "1700000000_41424344_my_clip.mp4"
  /\ Forall safe (str "1700000000_41424344_my_clip.mp4").
Proof.
  destruct (generated_key_shape (str "my clip") Demo.localPath 1700000000 (str "ABCD"))
    as (Hs & Hc & _).
  assert (E : keyAt (str "my clip") Demo.localPath 1700000000 (str "ABCD")
              = str "1700000000_41424344_my_clip.mp4")
    by (rewrite Hs; vm_compute; reflexivity).
  split; [exact E|]. rewrite <- E. exact Hc.
Defined.

(** C8, as stated, fails: the timestamp and the random text come first and
    the sanitized key last; the key does not start with the sanitized
    request. *)
Lemma generated_key_starts_with_timestamp :
  keyAt (str "video") Demo.localPath 1700000000
        ["222"%char; "173"%char; "190"%char; "239"%char]
  = str "1700000000_deadbeef_video.mp4"
  /\ SanitizeFilename (str "video") = str "video"
  /\ HasPrefix (str "1700000000_deadbeef_video.mp4") (str "video") = false
  /\ HasSuffix (str "1700000000_deadbeef_video.mp4") (str "video.mp4") = true.
Proof. repeat split; vm_compute; reflexivity. Qed.

End SanitizeProperties.

(* ===================================================================== *)
(** * Properties of the fetcher                                           *)
(* ===================================================================== *)

Section FetcherProperties.
Import GoStr Ytdlp Props.







(** C9. After a successful run that produced a media file, a sidecar that
    is missing, unreadable or unparsable is tolerated: the call returns the
    media file's path, no [VideoInfo] and no error, and keeps the directory.
    Without a media file the call fails, whatever the sidecar. *)
Theorem sidecar_optional_media_required (e : Env) (url : gostring)
    (options : option Options) (w w3 : World) (files : list DirEntry) :
  toolRun e url options w = Some (true, w3) ->
  ReadDir e (uniqueDirOf e) w3 = Some files ->
  let dir := uniqueDirOf e in
  let run := DownloadVideo e url options w in
  (forall f,
      lastOf isMedia files = Some f ->
      sidecarUnusable e (pathOf dir (lastOf isJSON files)) w3 ->
      fst run = {| filePath := Join dir (Name f); info := None; err := None |}
      /\ fs (snd run) = fs w3)
  /\ (lastOf isMedia files = None -> fst run = failure ErrNotFound).
Proof.
  intros Hrun Hread dir run.
  pose proof (DownloadVideo_after_run _ _ _ _ _ _ Hrun) as HD.
  fold run dir in HD. simpl in HD. fold dir in Hread. rewrite Hread in HD.
  rewrite (scan_last dir files) in HD. split.
  - intros f Hf Hbad. rewrite Hf in HD. simpl in HD.
    rewrite bool_decide_eq_false_2 in HD by apply Join_nonempty.
    pose proof (loadInfo_unusable _ _ _ Hbad) as Hi.
    pose proof (loadInfo_fs e (pathOf dir (lastOf isJSON files)) w3) as Hf3.
    destruct (loadInfo e _ w3) as [i w4]. simpl in Hi, Hf3. subst i.
    rewrite HD. split; [reflexivity|exact Hf3].
  - intros Hnone. rewrite Hnone in HD. simpl in HD. now rewrite HD.
Qed.

Lemma sidecar_optional_media_required_witness :
  fst (DownloadVideo (Demo.env true [Demo.sidecar "not json"; Demo.mediaB])
         Demo.url None Demo.emptyDisk)
  = {| filePath := Join Demo.downloadDir (str "clip.mp4");
       info := None; err := None |}
  /\ fst (DownloadVideo (Demo.env true [Demo.mediaB]) Demo.url None Demo.emptyDisk)
     = {| filePath := Join Demo.downloadDir (str "clip.mp4");
          info := None; err := None |}.
Proof.
  split.
  - pose (e := Demo.env true [Demo.sidecar "not json"; Demo.mediaB]).
    pose (w3 := snd (Run e (buildArgs Demo.downloadDir Demo.url None) Demo.downloadDir
                       (log LInfo "Starting video download" Demo.emptyDisk))).
    assert (Hrun : toolRun e Demo.url None Demo.emptyDisk = Some (true, w3))
      by (vm_compute; reflexivity).
    assert (Hread : ReadDir e (uniqueDirOf e) w3
                    = Some [Demo.sidecar "not json"; Demo.mediaB])
      by (vm_compute; reflexivity).
    destruct (sidecar_optional_media_required e Demo.url None Demo.emptyDisk w3 _
                Hrun Hread) as (H & _).
    apply (H Demo.mediaB); [vm_compute; reflexivity|].
    right. right. exists (str "not json"). split; vm_compute; reflexivity.
  - pose (e := Demo.env true [Demo.mediaB]).
    pose (w3 := snd (Run e (buildArgs Demo.downloadDir Demo.url None) Demo.downloadDir
                       (log LInfo "Starting video download" Demo.emptyDisk))).
    assert (Hrun : toolRun e Demo.url None Demo.emptyDisk = Some (true, w3))
      by (vm_compute; reflexivity).
    assert (Hread : ReadDir e (uniqueDirOf e) w3 = Some [Demo.mediaB])
      by (vm_compute; reflexivity).
    destruct (sidecar_optional_media_required e Demo.url None Demo.emptyDisk w3 _
                Hrun Hread) as (H & _).
    apply (H Demo.mediaB); [vm_compute; reflexivity|].
    left. vm_compute. reflexivity.
Defined.

End FetcherProperties.

(* ===================================================================== *)
(** * Properties of the authentication middleware                         *)
(* ===================================================================== *)

Section AuthProperties.
Import GoStr Auth Props.

(** C7. With authentication enabled, a request without an Authorization
    header, with a header that is not "bearer" (in any letter case), a
    space and a token, or with a token whose SHA-256 hex digest is not the
    configured string, is answered 401 with the error code "unauthorized"
    and no handler runs; a request whose token's digest equals the
    configured string, character for character, is handed to the handler. *)
Theorem authentication_gate (cfg : AuthConfig) (r : Request) :
  Enabled cfg = true ->
  (badCredentials cfg r ->
   rejects cfg r
   /\ forall (Resp : Type) (handler : Request -> Resp),
       snd (serve cfg handler r) = None)
  /\ (forall token,
         bearerHeader (GetHeader r) token ->
         hashKey token = APIKey cfg ->
         fst (Authenticate cfg r) = Next
         /\ forall (Resp : Type) (handler : Request -> Resp),
             snd (serve cfg handler r) = Some (handler r)).
Proof.
  intros He. split.
  - intros Hbad. pose proof (badCredentials_rejects cfg r He Hbad) as Hr.
    split; [exact Hr|]. intros Resp handler. now apply serve_Abort.
  - intros token Hb Hh.
    pose proof (goodCredentials_pass cfg r token He Hb Hh) as Hn.
    split; [exact Hn|]. intros Resp handler. now apply serve_Next.
Qed.

Lemma authentication_gate_witness :
  fst (Authenticate Demo.authOn (Demo.request (Some "bEaReR s3cret"%string))) = Next
  /\ rejects Demo.authOn (Demo.request None)
  /\ rejects Demo.authOn (Demo.request (Some "Basic s3cret"%string))
  /\ rejects Demo.authOn (Demo.request (Some "Bearer S3CRET"%string))
  /\ rejects Demo.authUpper (Demo.request (Some "Bearer s3cret"%string)).
Proof.
  split; [|split; [|split; [|split]]].
  - refine (proj1 (proj2 (authentication_gate Demo.authOn _ eq_refl)
                     Demo.token _ _)).
    + exists (str "bEaReR"). split; [reflexivity|]. split; [|reflexivity].
      vm_compute. intuition discriminate.
    + vm_compute. reflexivity.
  - refine (proj1 (proj1 (authentication_gate Demo.authOn _ eq_refl) _)).
    left. reflexivity.
  - refine (proj1 (proj1 (authentication_gate Demo.authOn _ eq_refl) _)).
    right. left. intros token Hb. apply bearerHeader_cut in Hb as (scheme & E & Hs).
    vm_compute in E. injection E as <- _. vm_compute in Hs. discriminate.
  - refine (proj1 (proj1 (authentication_gate Demo.authOn _ eq_refl) _)).
    right. right. exists (str "S3CRET"). split.
    + exists (str "Bearer"). split; [reflexivity|]. split; [|reflexivity].
      vm_compute. intuition discriminate.
    + vm_compute. discriminate.
  - refine (proj1 (proj1 (authentication_gate Demo.authUpper _ eq_refl) _)).
    right. right. exists Demo.token. split.
    + exists (str "Bearer"). split; [reflexivity|]. split; [|reflexivity].
      vm_compute. intuition discriminate.
    + vm_compute. discriminate.
Defined.

End AuthProperties.
(* ===================================================================== *)
(** * More about the fetcher                                              *)
(* ===================================================================== *)

Section FetcherExtras.
Import GoStr Ytdlp Props.


(** X2. The path a successful download returns names one of the entries the
    listing showed: an entry that is not a directory and does not have the
    extension ".json". *)
Theorem downloaded_path_is_listed_media (e : Env) (url : gostring)
    (options : option Options) (w w3 : World) (files : list DirEntry) :
  toolRun e url options w = Some (true, w3) ->
  ReadDir e (uniqueDirOf e) w3 = Some files ->
  err (fst (DownloadVideo e url options w)) = None ->
  exists f,
    In f files
    /\ IsDir f = false
    /\ Ext (Name f) <> str ".json"
    /\ filePath (fst (DownloadVideo e url options w)) = Join (uniqueDirOf e) (Name f).
Proof.
  intros Hrun Hread Herr.
  destruct (download_success_shape _ _ _ _ _ _ Hrun Hread Herr)
    as (f & Hin & Hm & Hpath & _).
  exists f. unfold isMedia, isJSON in Hm. apply andb_prop in Hm as [Hj Hd].
  apply negb_true_iff in Hj, Hd. apply bool_decide_eq_false in Hj.
  repeat split; assumption.
Qed.

Lemma downloaded_path_is_listed_media_witness :
  exists f,
    In f [Demo.sidecar "{}"; Demo.mediaB]
    /\ IsDir f = false
    /\ Ext (Name f) <> str ".json"
    /\ filePath (fst (DownloadVideo (Demo.env true [Demo.sidecar "{}"; Demo.mediaB])
                        Demo.url None Demo.emptyDisk))
       = Join Demo.downloadDir (Name f).
Proof.
  pose (e := Demo.env true [Demo.sidecar "{}"; Demo.mediaB]).
  pose (w3 := snd (Run e (buildArgs Demo.downloadDir Demo.url None) Demo.downloadDir
                     (log LInfo "Starting video download" Demo.emptyDisk))).
  apply (downloaded_path_is_listed_media e Demo.url None Demo.emptyDisk w3);
    vm_compute; reflexivity.
Defined.

(** X3. Two calls of one service whose clock readings differ work in
    different directories, and when both succeed they return different
    paths. *)
Theorem distinct_times_distinct_paths (e1 e2 : Env) (url1 url2 : gostring)
    (o1 o2 : option Options) (w1 w2 : World) :
  tmpDir e1 = tmpDir e2 ->
  nowNano e1 <> nowNano e2 ->
  uniqueDirOf e1 <> uniqueDirOf e2
  /\ (err (fst (DownloadVideo e1 url1 o1 w1)) = None ->
      err (fst (DownloadVideo e2 url2 o2 w2)) = None ->
      filePath (fst (DownloadVideo e1 url1 o1 w1))
      <> filePath (fst (DownloadVideo e2 url2 o2 w2))).
Proof.
  intros Ht Hn. split.
  - unfold uniqueDirOf, Join. rewrite Ht. intros E.
    apply app_inv_head in E. injection E as E.
    now apply fmtInt_inj in E.
  - intros H1 H2.
    destruct (DownloadVideo_success_path _ _ _ _ H1) as [n1 ->].
    destruct (DownloadVideo_success_path _ _ _ _ H2) as [n2 ->].
    unfold uniqueDirOf, Join. rewrite Ht. intros E.
    rewrite <- !app_assoc in E. apply app_inv_head in E.
    injection E as E.
    apply cut_unique in E as [E _];
      try (eapply Forall_impl; [apply fmtInt_dec|apply decChar_not_slash]).
    now apply fmtInt_inj in E.
Qed.

Lemma distinct_times_distinct_paths_witness :
  nowNano (Demo.env true [Demo.mediaB]) <> nowNano (Demo.laterEnv true [Demo.mediaB])
  /\ uniqueDirOf (Demo.env true [Demo.mediaB])
     <> uniqueDirOf (Demo.laterEnv true [Demo.mediaB]).
Proof.
  assert (Hn : nowNano (Demo.env true [Demo.mediaB])
               <> nowNano (Demo.laterEnv true [Demo.mediaB]))
    by (vm_compute; discriminate).
  split; [exact Hn|].
  exact (proj1 (distinct_times_distinct_paths
                  (Demo.env true [Demo.mediaB]) (Demo.laterEnv true [Demo.mediaB])
                  Demo.url Demo.url None None Demo.emptyDisk Demo.emptyDisk
                  eq_refl Hn)).
Defined.

(** X4. The tool is always invoked with the four fixed arguments first and
    the URL last; without options nothing stands between them; and the
    option [OutputPath] has no effect on the arguments. *)
Theorem tool_arguments_frame (dir url p : gostring) (o : Options) :
  (exists middle, buildArgs dir url (Some o) = fixedArgs dir ++ middle ++ [url])
  /\ last (buildArgs dir url (Some o)) = Some url
  /\ buildArgs dir url None = fixedArgs dir ++ [url]
  /\ buildArgs dir url (Some (withOutputPath p o)) = buildArgs dir url (Some o).
Proof.
  destruct (buildArgs_shape dir url (Some o)) as [middle H].
  split; [eauto|]. split; [|split; reflexivity].
  rewrite H, !app_assoc. apply last_snoc.
Qed.



End FetcherExtras.

(* ===================================================================== *)
(** * More about the uploader                                             *)
(* ===================================================================== *)

Section UploaderExtras.
Import GoStr S3 Props.

Local Arguments Utils.GetContentType : simpl never.
Local Arguments Base : simpl never.
Local Arguments TrimByte : simpl never.
Local Arguments getMetadataKey : simpl never.
Local Arguments add64 : simpl never.

Local Ltac run :=
  cbv [UploadVideoWithMetadata DeleteVideoAndMetadata uploadFile uploadMetadata
       DeleteFile DeleteObject PutObject Open guard nextFault now log attempt
       wrapErr bind ret throw setObjects];
  cbn [objects files faults clock logs].

Local Ltac script :=
  repeat match goal with
         | |- context [match ?l with [] => _ | _ :: _ => _ end] =>
             destruct l as [|[] ?]; cbn
         | |- context [marshalIndent ?s ?m] =>
             destruct (marshalIndent s m) eqn:?; cbn
         end.

(** What a successful upload has read and stored. *)
Lemma upload_success_objects (s : Service) (filePath key : gostring)
    (info : option Ytdlp.VideoInfo) (w w' : World) (res : UploadResult) :
  UploadVideoWithMetadata s filePath key info w = (inr res, w') ->
  exists f json vobj mobj,
    files w !! filePath = Some f
    /\ marshalIndent s {| original_filename := Base filePath;
                          upload_timestamp := rfc3339 s (clock w);
                          video_info := info |} = Some json
    /\ oBody vobj = content f
    /\ oContentType vobj = Utils.GetContentType filePath
    /\ oBody mobj = json
    /\ oContentType mobj = str "application/json"
    /\ objects w' = <[getMetadataKey key := mobj]> (<[key := vobj]> (objects w))
    /\ Size (VideoUpload res) = Z.of_nat (length (content f))
    /\ Size (MetadataUpload res) = Z.of_nat (length json)
    /\ ContentType (VideoUpload res) = Utils.GetContentType filePath
    /\ Location (VideoUpload res) = locationOf s key.
Proof.
  run.
  destruct (files w !! filePath) as [f|]; cbn; [|discriminate].
  destruct (statFails f); cbn; [discriminate|].
  destruct (readFails f); cbn; [discriminate|].
  destruct (seekFails f); cbn; [discriminate|].
  script; try discriminate; intros [= <- <-]; cbn;
    eexists f, _, _, _; repeat split; try eassumption; reflexivity.
Qed.

(** X6. [DeleteVideoAndMetadata] attempts both deletions, the second also
    when the first failed: each object is removed exactly when its own
    deletion succeeds, and the call returns no error exactly when both do. *)
Theorem delete_both_independently (videoKey : gostring) (w : World) :
  let run := DeleteVideoAndMetadata videoKey w in
  let failed1 := nth 0 (faults w) false in
  let failed2 := nth 1 (faults w) false in
  let afterVideo := if failed1 then objects w else delete videoKey (objects w) in
  objects (snd run)
  = (if failed2 then afterVideo else delete (getMetadataKey videoKey) afterVideo)
  /\ (fst run = inr tt <-> failed1 = false /\ failed2 = false)
  /\ faults (snd run) = drop 2 (faults w).
Proof.
  destruct w as [objs fls script0 clk lg]. run.
  destruct script0 as [|[] [|[] rest]]; cbn;
    (split; [reflexivity|split; [|reflexivity]]);
    (split; [intros H; try discriminate; auto
            |intros [H1 H2]; try discriminate; reflexivity]).
Qed.


(** X8. After a successful upload under a key whose extension is not
    ".json", reading the video key gives the local file's bytes and reading
    the metadata key gives the marshalled document, which names the file's
    base name and carries the video info passed in; the reported sizes are
    the two lengths. *)
Theorem upload_then_read (s : Service) (filePath key : gostring)
    (info : option Ytdlp.VideoInfo) (w w' : World) (res : UploadResult) :
  UploadVideoWithMetadata s filePath key info w = (inr res, w') ->
  Ext key <> str ".json" ->
  exists f json,
    files w !! filePath = Some f
    /\ marshalIndent s {| original_filename := Base filePath;
                          upload_timestamp := rfc3339 s (clock w);
                          video_info := info |} = Some json
    /\ oBody <$> objects w' !! key = Some (content f)
    /\ oBody <$> objects w' !! getMetadataKey key = Some json
    /\ oContentType <$> objects w' !! getMetadataKey key = Some (str "application/json")
    /\ Size (VideoUpload res) = Z.of_nat (length (content f))
    /\ Size (MetadataUpload res) = Z.of_nat (length json).
Proof.
  intros E Hext.
  destruct (upload_success_objects _ _ _ _ _ _ _ E)
    as (f & json & vobj & mobj & Hf & Hj & Hv & _ & Hm & Hc & Ho & Sv & Sm & _).
  assert (Hne : getMetadataKey key <> key).
  { intros Hk. apply Hext. now apply getMetadataKey_fixed. }
  exists f, json. rewrite Ho.
  rewrite lookup_insert_ne, !lookup_insert_eq by exact Hne. cbn.
  rewrite Hv, Hm, Hc. repeat split; assumption.
Qed.

Lemma upload_then_read_witness :
  oBody <$> objects (snd Demo.uploadOK) !! Demo.videoKey = Some (str "MOVIEDATA")
  /\ oBody <$> objects (snd Demo.uploadOK) !! getMetadataKey Demo.videoKey
     = Some (str "{ original_filename: clip.mp4 }").
Proof.
  assert (E : Demo.uploadOK = (inr Demo.uploadedResult, snd Demo.uploadOK))
    by (vm_compute; reflexivity).
  assert (Hext : Ext Demo.videoKey <> str ".json") by (vm_compute; discriminate).
  destruct (upload_then_read _ _ _ _ _ _ _ E Hext)
    as (f & json & Hf & Hj & Hv & Hm & _).
  vm_compute in Hf. injection Hf as <-.
  vm_compute in Hj. injection Hj as <-.
  split; [exact Hv|exact Hm].
Defined.

(** X9. Two video keys have the same metadata key exactly when they agree
    up to their extensions: their metadata objects then overwrite each
    other. *)
Theorem metadata_key_collision (k1 k2 : gostring) :
  getMetadataKey k1 = getMetadataKey k2 <-> stem k1 = stem k2.
Proof.
  rewrite !getMetadataKey_stem. split.
  - apply app_inv_tail.
  - now intros ->.
Qed.

(** X10. The metadata key of a key the upload handler generates consists of
    bytes of the class [a-zA-Z0-9-_.] only, has the extension ".json", and is
    given the content type "application/json" by its extension as well. *)
Theorem generated_metadata_key_safe (requestedKey filePath : gostring) (ts : Z)
    (rnd : gostring) :
  let key := keyAt requestedKey filePath ts rnd in
  Forall safe (getMetadataKey key)
  /\ Ext (getMetadataKey key) = str ".json"
  /\ Utils.GetContentType (getMetadataKey key) = str "application/json".
Proof.
  intros key. split; [|split].
  - apply getMetadataKey_safe. unfold key, keyAt, Handlers.generateUniqueS3Key.
    apply GenerateUniqueKey_safe, SanitizeFilename_safe.
  - apply getMetadataKey_ext.
  - unfold Utils.GetContentType. rewrite getMetadataKey_ext. reflexivity.
Qed.

End UploaderExtras.
(* ===================================================================== *)
(** * More about names, content types and timeouts                        *)
(* ===================================================================== *)

Section NameExtras.
Import GoStr Utils Props.

Lemma trimRightByte_snoc_eq (c : ascii) (b : gostring) :
  trimRightByte (b ++ [c]) c = trimRightByte b c.
Proof.
  unfold trimRightByte. rewrite rev_app_distr. simpl.
  now destruct (Ascii.eqb_spec c c).
Qed.

Lemma trimRightByte_snoc_ne (c l : ascii) (b : gostring) :
  l <> c -> trimRightByte (b ++ [l]) c = b ++ [l].
Proof.
  intros H. unfold trimRightByte. rewrite rev_app_distr. simpl.
  destruct (Ascii.eqb_spec l c); [contradiction|].
  simpl. now rewrite rev_involutive.
Qed.

Lemma trimRightByte_fixed_last (c : ascii) (t : gostring) :
  trimRightByte t c = t -> last t <> Some c.
Proof.
  destruct t as [|x t'] using rev_ind; [discriminate|].
  rewrite last_snoc. intros E [= ->].
  rewrite trimRightByte_snoc_eq in E.
  pose proof (trimRightByte_length c t') as Hl.
  rewrite E, length_app in Hl. simpl in Hl. lia.
Qed.

Lemma last_keep_trimRightByte (c : ascii) (t : gostring) :
  last t <> Some c -> trimRightByte t c = t.
Proof.
  destruct t as [|x t'] using rev_ind; [reflexivity|].
  rewrite last_snoc. intros H. apply trimRightByte_snoc_ne. congruence.
Qed.

Lemma replaceUnsafe_length (s : gostring) :
  forall skip, (length (replaceUnsafe skip s) <= length s)%nat.
Proof.
  induction s as [|c s IH]; intros skip; [simpl; lia|].
  destruct skip; cbn [replaceUnsafe].
  - destruct (byteVal c <? 128)%N; cbn [length].
    + specialize (IH 0%nat). lia.
    + specialize (IH (runeWidth (c :: s) - 1)%nat). lia.
  - specialize (IH skip). cbn [length]. lia.
Qed.

(** X11. A sanitized name is never empty and never starts with an
    underscore; it is never longer than its input unless it is the fallback
    "file"; and when the first pass did not truncate it does not end in an
    underscore either. *)
Theorem sanitized_name_ends (x : gostring) :
  SanitizeFilename x <> []
  /\ head (SanitizeFilename x) <> Some underscore
  /\ (SanitizeFilename x = str "file"
      \/ (length (SanitizeFilename x) <= length x)%nat)
  /\ ((length (TrimByte (ReplaceAllString x) underscore) <= 100)%nat ->
      last (SanitizeFilename x) <> Some underscore).
Proof.
  destruct (SanitizeFilename_head x) as (h & rest & E & Hh).
  split; [rewrite E; discriminate|]. split; [rewrite E; simpl; congruence|]. split.
  - unfold SanitizeFilename.
    set (t := TrimByte (ReplaceAllString x) underscore).
    assert (Ht : (length t <= length x)%nat).
    { unfold t, TrimByte.
      etransitivity; [apply trimLeftByte_length|].
      etransitivity; [apply trimRightByte_length|apply replaceUnsafe_length]. }
    destruct (100 <? length t)%nat; case_bool_decide; auto; right;
      rewrite ?length_take; lia.
  - intros Hl. destruct (TrimByte (ReplaceAllString x) underscore) as [|c t] eqn:Et.
    + rewrite (SanitizeFilename_fallback x Et). discriminate.
    + rewrite (SanitizeFilename_short x); rewrite Et; try easy.
      rewrite <- Et. apply trimRightByte_fixed_last, trimRightByte_TrimByte.
Qed.

Lemma sanitized_name_ends_witness :
  SanitizeFilename (str "_draft v2_") = str "draft_v2"
  /\ last (SanitizeFilename (str "_draft v2_")) <> Some underscore.
Proof.
  split; [reflexivity|].
  destruct (sanitized_name_ends (str "_draft v2_")) as (_ & _ & _ & H).
  apply H. vm_compute. lia.
Defined.

(** X12. A name of at most 100 bytes of the class that neither starts nor
    ends with an underscore is returned unchanged. *)
Theorem sanitize_keeps_clean_name (x : gostring) :
  x <> [] ->
  Forall safe x ->
  (length x <= 100)%nat ->
  head x <> Some underscore ->
  last x <> Some underscore ->
  SanitizeFilename x = x.
Proof.
  intros Hne Hs Hl Hh Hla. destruct x as [|h rest]; [contradiction|].
  rewrite SanitizeFilename_on_clean; try assumption.
  - now apply last_keep_trimRightByte.
  - simpl in Hh. congruence.
Qed.

Lemma sanitize_keeps_clean_name_witness :
  SanitizeFilename (str "My-Clip_2024.final.mp4") = str "My-Clip_2024.final.mp4".
Proof.
  apply sanitize_keeps_clean_name.
  - discriminate.
  - repeat constructor.
  - vm_compute. lia.
  - discriminate.
  - vm_compute. discriminate.
Defined.

Lemma lowerByte_dot (c : ascii) : lowerByte c = dot -> c = dot.
Proof.
  destruct c as [b0 b1 b2 b3 b4 b5 b6 b7].
  destruct b0, b1, b2, b3, b4, b5, b6, b7; vm_compute; congruence.
Qed.

Lemma lowerByte_slash (c : ascii) : lowerByte c = slash -> c = slash.
Proof.
  destruct c as [b0 b1 b2 b3 b4 b5 b6 b7].
  destruct b0, b1, b2, b3, b4, b5, b6, b7; vm_compute; congruence.
Qed.

Lemma ToLower_clean (s : gostring) :
  Forall (fun c => c <> slash /\ c <> dot) (ToLower s) ->
  Forall (fun c => c <> slash /\ c <> dot) s.
Proof.
  unfold ToLower. induction s as [|c s IH]; simpl; [constructor|].
  intros H. inversion H as [|? ? [Hs Hd] Ht]; subst. constructor; [|now apply IH].
  split; intros ->; [now apply Hs|now apply Hd].
Qed.

(** Every extension of the table is a dot followed by letters and digits,
    and is the first entry the lookup meets. *)
Lemma contentTypes_shape :
  Forall (fun et =>
            (exists tail, str (fst et) = dot :: tail
                          /\ Forall (fun c => c <> slash /\ c <> dot) tail)
            /\ lookupType (str (fst et)) contentTypes = str (snd et))
         contentTypes.
Proof.
  unfold contentTypes.
  repeat (constructor;
          [split; [eexists; split; [reflexivity|];
                   repeat (constructor; [split; discriminate|]); constructor
                  |reflexivity]|]).
  constructor.
Qed.

(** X13. The content type is chosen by the extension alone, whatever the
    letter case: a path that ends in an extension of the table, written in
    any case, gets that entry's type. *)
Theorem content_type_by_extension (e t : string) (path ext : gostring) :
  In (e, t) contentTypes ->
  ToLower ext = str e ->
  GetContentType (path ++ ext) = str t.
Proof.
  intros Hin Hlow.
  pose proof (proj1 (List.Forall_forall _ _) contentTypes_shape _ Hin)
    as [(tail & He & Hc) Hl].
  simpl in He, Hl. rewrite He in Hlow.
  destruct ext as [|c0 ext']; [discriminate|]. simpl in Hlow.
  injection Hlow as H0 Ht. apply lowerByte_dot in H0. subst c0.
  assert (Hclean : Forall (fun c => c <> slash /\ c <> dot) ext').
  { apply ToLower_clean. now rewrite Ht. }
  unfold GetContentType. rewrite (Ext_app_tail path ext' Hclean).
  change (ToLower (dot :: ext')) with (dot :: ToLower ext').
  rewrite Ht, <- He. exact Hl.
Qed.

Lemma content_type_by_extension_witness :
  GetContentType (str "/tmp/ytdlp-downloads/download_1/Clip.WebM") = str "video/webm".
Proof.
  apply (content_type_by_extension ".webm" "video/webm"
           (str "/tmp/ytdlp-downloads/download_1/Clip") (str ".WebM")).
  - unfold contentTypes. simpl. auto 10.
  - reflexivity.
Defined.

Lemma GenerateUniqueKey_split (ts : Z) (rnd name : gostring) :
  GenerateUniqueKey ts rnd name
  = (fmtInt ts ++ underscore :: EncodeToString rnd ++ underscore
       :: SanitizeFilename (TrimSuffix name (Ext name))) ++ Ext name.
Proof.
  unfold GenerateUniqueKey. repeat (rewrite <- app_assoc; simpl). reflexivity.
Qed.

(** X14. A generated key keeps the extension of the name it is generated
    from, and with it the content type. *)
Theorem generated_key_keeps_extension (ts : Z) (rnd name : gostring) :
  Ext name <> [] ->
  Ext (GenerateUniqueKey ts rnd name) = Ext name
  /\ GetContentType (GenerateUniqueKey ts rnd name) = GetContentType name.
Proof.
  intros H. assert (E : Ext (GenerateUniqueKey ts rnd name) = Ext name).
  { rewrite GenerateUniqueKey_split. now apply Ext_app_Ext. }
  split; [exact E|]. unfold GetContentType. now rewrite E.
Qed.

Lemma generated_key_keeps_extension_witness :
  Ext (GenerateUniqueKey 1700000000 (str "ABCD") (str "my clip.webm")) = str ".webm".
Proof.
  assert (H : Ext (str "my clip.webm") <> []) by (vm_compute; discriminate).
  exact (proj1 (generated_key_keeps_extension 1700000000 (str "ABCD")
                  (str "my clip.webm") H)).
Defined.

End NameExtras.
(* ===================================================================== *)
(** * More about the request handlers                                     *)
(* ===================================================================== *)

Section HandlerExtras.
Import GoStr Utils Handlers Props.

(** X15. The download file name is a non-empty base of at most 100 bytes of
    the class, followed by the downloaded file's extension, or by ".mp4" when
    the file has none; that is also the name's extension, so that for a file
    with an extension the advertised name and the Content-Type header, which
    is chosen from the file's path, agree. *)
Theorem download_filename_shape (filePath : gostring)
    (videoInfo : option Ytdlp.VideoInfo) :
  let name := generateDownloadFilename filePath videoInfo in
  let ext := if bool_decide (Ext filePath = []) then str ".mp4" else Ext filePath in
  Ext name = ext
  /\ (exists base,
         name = base ++ ext /\ base <> [] /\ Forall safe base
         /\ (length base <= 100)%nat)
  /\ (Ext filePath <> [] -> GetContentType name = GetContentType filePath).
Proof.
  intros name ext.
  set (base := match videoInfo with
               | Some i => if bool_decide (Ytdlp.Title i <> [])
                           then SanitizeFilename (Ytdlp.Title i) else str "video"
               | None => str "video"
               end).
  assert (Hn : name = base ++ ext) by reflexivity.
  assert (He : Ext name = ext).
  { rewrite Hn. unfold ext. case_bool_decide as E.
    - apply (Ext_app_tail base (str "mp4")). repeat constructor; discriminate.
    - now apply Ext_app_Ext. }
  split; [exact He|]. split.
  - exists base. split; [exact Hn|].
    assert (Hv : str "video" <> [] /\ Forall safe (str "video")
                 /\ (length (str "video") <= 100)%nat).
    { split; [discriminate|]. split; [repeat constructor|simpl; lia]. }
    assert (Hs : forall t, SanitizeFilename t <> [] /\ Forall safe (SanitizeFilename t)
                           /\ (length (SanitizeFilename t) <= 100)%nat).
    { intros t. destruct (SanitizeFilename_head t) as (h & rest & E & _).
      split; [rewrite E; discriminate|].
      split; [apply SanitizeFilename_safe|apply SanitizeFilename_length]. }
    unfold base. destruct videoInfo as [i|]; [|exact Hv].
    case_bool_decide; [apply Hs|exact Hv].
  - intros Hext. unfold GetContentType. rewrite He. unfold ext.
    now rewrite bool_decide_eq_false_2.
Qed.

Lemma download_filename_shape_witness :
  generateDownloadFilename Demo.localPath (Some Demo.someInfo) = str "clip.mp4"
  /\ GetContentType (generateDownloadFilename Demo.localPath (Some Demo.someInfo))
     = GetContentType Demo.localPath.
Proof.
  split; [reflexivity|].
  apply (download_filename_shape Demo.localPath (Some Demo.someInfo)).
  vm_compute. discriminate.
Defined.

(** X16. The effective timeout of a handler is its default when the
    request gives 0 seconds, and the given number of seconds when that is not
    0 and lies within about 292 years either way; the product with one second
    wraps around in 64 bits, so a multiple of 2^55 seconds gives the default
    as well. *)
Theorem effective_timeout_cases (default t : Z) :
  effectiveTimeout default 0 = default
  /\ (t <> 0 -> - 9223372036 <= t <= 9223372036 ->
      effectiveTimeout default t = t * second)
  /\ effectiveTimeout default (t * 2 ^ 55) = default.
Proof.
  unfold effectiveTimeout, wrap64, second. split; [reflexivity|]. split.
  - intros Hz Hr. rewrite Z.mod_small by lia.
    destruct (Z.eqb_spec (t * 1000000000 + 2 ^ 63 - 2 ^ 63) 0); lia.
  - replace (t * 2 ^ 55 * 1000000000 + 2 ^ 63)
      with (2 ^ 63 + (t * 1953125) * 2 ^ 64) by lia.
    rewrite Z_mod_plus_full. reflexivity.
Qed.

Lemma effective_timeout_cases_witness :
  effectiveTimeout (5 * minute) 30 = 30 * second
  /\ effectiveTimeout (5 * minute) (-1) = -1 * second.
Proof.
  split.
  - apply (effective_timeout_cases (5 * minute) 30); lia.
  - apply (effective_timeout_cases (5 * minute) (-1)); lia.
Defined.






(** X19. [POST /upload] stops early without touching the storage: a body
    that does not decode or has an empty [url] or [s3_key] is answered 400 and
    leaves disk and bucket as they were; a failed download is answered 500
    with the download's error and no storage call is made. *)
Theorem upload_handle_stops_early (x : Surroundings) (svc : S3.Service)
    (body : option UploadRequest) (sys : System) :
  let out := UploadHandle x svc body sys in
  (bindUpload body = None <->
   body = None \/ exists r, body = Some r /\ (UURL r = [] \/ US3Key r = []))
  /\ (bindUpload body = None ->
      Status (fst out) = 400 /\ Failure (fst out) = Some InvalidBody
      /\ storage (snd out) = storage sys
      /\ Ytdlp.fs (disk (snd out)) = Ytdlp.fs (disk sys))
  /\ (forall req de,
         bindUpload body = Some req ->
         let e := fetcher x (effectiveTimeout (10 * minute) (UTimeout req)) in
         let w0 := Ytdlp.log LInfo "Starting video download and S3 upload" (disk sys) in
         let d := Ytdlp.DownloadVideo e (UURL req) (UOptions req) w0 in
         Ytdlp.err (fst d) = Some de ->
         Status (fst out) = 500
         /\ Failure (fst out) = Some (DownloadFailed de)
         /\ Result (fst out) = None
         /\ storage (snd out) = storage sys
         /\ Ytdlp.fs (disk (snd out)) = Ytdlp.fs (snd d)).
Proof.
  intros out. split; [|split].
  - unfold bindUpload. destruct body as [r|]; cbn [mbind option_bind].
    + split.
      * intros H. right. exists r. split; [reflexivity|].
        destruct (decide (UURL r = [])) as [E|E]; [now left|].
        destruct (decide (US3Key r = [])) as [E'|E']; [now right|].
        rewrite !bool_decide_eq_false_2 in H by assumption. discriminate.
      * intros [H|(r' & [= <-] & [E|E])]; [discriminate|..];
          rewrite (bool_decide_eq_true_2 _ E), ?orb_true_r; reflexivity.
    + split; [now left|reflexivity].
  - intros Hb. subst out. unfold UploadHandle. rewrite Hb. simpl. auto.
  - intros req de Hb e w0 d Herr. subst out. unfold UploadHandle. rewrite Hb.
    fold e w0 d. destruct d as [r w1]. simpl in *. rewrite Herr. simpl. auto.
Qed.

(** X20. [POST /download] answers a body that does not decode or has an
    empty [url] with the 400 error "bad_request" and leaves the disk as it
    was; a failed download is answered with the 500 error "download_failed",
    and then no cleanup is scheduled: the disk is as the fetcher left it. *)
Theorem download_handle_stops_early (x : Surroundings)
    (body : option DownloadRequest) (w : Ytdlp.World) :
  let out := DownloadHandle x body w in
  (bindDownload body = None <->
   body = None \/ exists r, body = Some r /\ DURL r = [])
  /\ (bindDownload body = None ->
      fst out = DownloadError 400 "bad_request"
      /\ Ytdlp.fs (snd out) = Ytdlp.fs w)
  /\ (forall req de,
         bindDownload body = Some req ->
         let e := fetcher x (effectiveTimeout (5 * minute) (DTimeout req)) in
         let w0 := Ytdlp.log LInfo "Starting video download" w in
         let d := Ytdlp.DownloadVideo e (DURL req) (DOptions req) w0 in
         Ytdlp.err (fst d) = Some de ->
         fst out = DownloadError 500 "download_failed"
         /\ Ytdlp.fs (snd out) = Ytdlp.fs (snd d)).
Proof.
  intros out. split; [|split].
  - unfold bindDownload. destruct body as [r|]; cbn [mbind option_bind].
    + split.
      * intros H. right. exists r. split; [reflexivity|].
        destruct (decide (DURL r = [])) as [E|E]; [exact E|].
        rewrite bool_decide_eq_false_2 in H by assumption. discriminate.
      * intros [H|(r' & [= <-] & E)]; [discriminate|].
        now rewrite (bool_decide_eq_true_2 _ E).
    + split; [now left|reflexivity].
  - intros Hb. subst out. unfold DownloadHandle. rewrite Hb. simpl. auto.
  - intros req de Hb e w0 d Herr. subst out. unfold DownloadHandle. rewrite Hb.
    fold e w0 d. destruct d as [r w1]. simpl in *. rewrite Herr. simpl. auto.
Qed.

End HandlerExtras.
(* ===================================================================== *)
(** * More about authentication                                           *)
(* ===================================================================== *)

Section AuthExtras.
Import GoStr Auth Props.

Lemma round_length (st : list Z) (kw : Z * Z) :
  length (Sha256.round st kw) = length st.
Proof.
  destruct st as [|a [|b [|c [|d [|e [|f [|g [|h [|i t]]]]]]]]]; reflexivity.
Qed.

Lemma rounds_length (kws : list (Z * Z)) (st : list Z) :
  length (fold_left Sha256.round kws st) = length st.
Proof.
  revert st. induction kws as [|kw kws IH]; intros st; simpl; [reflexivity|].
  now rewrite IH, round_length.
Qed.

Lemma compress_length (h block : list Z) :
  length (Sha256.compress h block) = length h.
Proof.
  unfold Sha256.compress, Sha256.zipAdd.
  rewrite length_map, length_combine, rounds_length. lia.
Qed.

Lemma blocks_length (fuel : nat) (bs h : list Z) :
  length (Sha256.blocks fuel bs h) = length h.
Proof.
  revert bs h. induction fuel as [|fuel IH]; intros bs h; simpl; [reflexivity|].
  destruct bs; [reflexivity|]. now rewrite IH, compress_length.
Qed.

Lemma words_bytes_length (hs : list Z) :
  length (flat_map (Sha256.beBytes 4) hs) = (4 * length hs)%nat.
Proof.
  induction hs as [|h hs IH]; [reflexivity|].
  cbn [flat_map]. rewrite length_app, IH. cbn [Sha256.beBytes length]. lia.
Qed.

(** A digest has 32 bytes. *)
Lemma Sum256_length (data : gostring) : length (Sha256.Sum256 data) = 32%nat.
Proof.
  unfold Sha256.Sum256. rewrite length_map, words_bytes_length, blocks_length.
  reflexivity.
Qed.

Lemma EncodeToString_length (bs : gostring) :
  length (EncodeToString bs) = (2 * length bs)%nat.
Proof.
  unfold EncodeToString. induction bs as [|c bs IH]; [reflexivity|].
  cbn [map concat]. rewrite length_app, IH. simpl. lia.
Qed.

Lemma hashKey_shape_aux (key : gostring) :
  length (hashKey key) = 64%nat /\ Forall hexChar (hashKey key).
Proof.
  unfold hashKey. split.
  - now rewrite EncodeToString_length, Sum256_length.
  - apply EncodeToString_hex.
Qed.

(** X21. The digest the middleware compares is always 64 characters long
    and written with the digits 0-9 and the letters a-f. *)
Theorem hashKey_shape (key : gostring) :
  length (hashKey key) = 64%nat /\ Forall hexChar (hashKey key).
Proof.
  unfold hashKey. split.
  - rewrite EncodeToString_length, Sum256_length. reflexivity.
  - apply EncodeToString_hex.
Qed.

(** X22. With authentication enabled and a configured value that is not 64
    characters long, or has a character outside 0-9 and a-f, every request is
    rejected, whatever its header: no token matches. *)
Theorem malformed_digest_rejects_all (cfg : AuthConfig) (r : Request) :
  Enabled cfg = true ->
  length (APIKey cfg) <> 64%nat \/ ~ Forall hexChar (APIKey cfg) ->
  rejects cfg r.
Proof.
  intros He Hbad. pose proof (Authenticate_enabled cfg r He) as HA.
  case_bool_decide; [eapply rejects_unauthorized, HA|].
  destruct (cutAtSpace (GetHeader r)) as [[scheme token]|];
    [|eapply rejects_unauthorized, HA].
  case_bool_decide; [|eapply rejects_unauthorized, HA].
  case_bool_decide as Hh; [|eapply rejects_unauthorized, HA].
  exfalso. destruct (hashKey_shape_aux token) as [Hl Hx]. rewrite Hh in Hl, Hx.
  destruct Hbad as [Hb|Hb]; [now apply Hb|now apply Hb].
Qed.

Lemma malformed_digest_rejects_all_witness :
  hashKey Demo.token = Demo.digest
  /\ rejects Demo.authRaw (Demo.request (Some "Bearer s3cret"%string)).
Proof.
  split; [vm_compute; reflexivity|].
  apply malformed_digest_rejects_all; [reflexivity|].
  left. vm_compute. discriminate.
Defined.

End AuthExtras.
